(** * SQLiteWebEditor: client-side SQLite layer and server-side blob store

    A shallow embedding of
      - [client/src/lib/sqlite-utils.ts]  (class [SqliteDatabase], [exportToCSV]),
      - [server/storage.ts]               (class [MemStorage]),
      - [server/routes.ts]                (the upload filter, the upload and the
                                           delete routes),
    together with the properties of the specification that concern them.

    The SQLite engine (sql.js), the Node file system and the HTTP framework are
    libraries outside the repository.  They enter the development as
    interfaces ([SqlEngine], [NodeEnv]); the repository's code is written
    against these interfaces exactly as the TypeScript is written against the
    libraries. *)

From Stdlib Require Import ZArith Ascii String Strings.Byte.
From stdpp Require Import gmap strings list pretty.

Set Default Proof Using "Type".

(** ** JavaScript values and string primitives *)

Module Js.

(** The double-quote and line-feed characters, and the strings made of them. *)
Definition dquote_char : ascii := "034"%char.
Definition newline_char : ascii := "010"%char.
Definition dquote : string := String dquote_char EmptyString.
Definition newline : string := String newline_char EmptyString.

(** [Array.prototype.join] on an array of strings. *)
Fixpoint join (sep : string) (parts : list string) : string :=
  match parts with
  | [] => EmptyString
  | [x] => x
  | x :: (_ :: _) as rest => x +:+ sep +:+ join sep rest
  end.

(** A string is kept as the sequence of its UTF-8 bytes; the functions that
    count positions in a text ([SqlEditor]) are exact on texts of one-byte
    characters.

    The values a cell of a sql.js result can hold, as JavaScript sees them:
    [null], a number, a string or a [Uint8Array]; [undefined] is what reading
    past the end of a row gives.  The code never computes with a number, it
    only prints it, so a number is kept either as an integer ([JNum n] is the
    double of an integer [n] of magnitude at most 2^53, which JavaScript
    prints as the decimal of [n]) or, for any other double, the integer-valued
    ones above 2^53 among them, as the text [Number.prototype.toString] gives
    for it ([JFloat]). *)
Inductive value : Type :=
  | JNull
  | JUndefined
  | JNum (n : Z)
  | JFloat (text : string)
  | JStr (s : string)
  | JBytes (bs : list byte).

(** [ToString], as applied by a template literal [`${v}`]. *)
Definition to_string (v : value) : string :=
  match v with
  | JNull => "null"
  | JUndefined => "undefined"
  | JNum n => pretty n
  | JFloat text => text
  | JStr s => s
  | JBytes bs => join "," (map (fun b => pretty (Byte.to_N b)) bs)
  end.

(** The nullish coalescing operator [a ?? b]. *)
Definition nullish (a b : value) : value :=
  match a with
  | JNull | JUndefined => b
  | _ => a
  end.

(** Array indexing [row[i]]: [undefined] out of range. *)
Definition index (row : list value) (i : nat) : value := nth i row JUndefined.

(** What a [throw] carries: an [Error] instance with its [message], or any
    other thrown value. *)
Inductive exn : Type :=
  | ErrorObj (message : string)
  | NotAnError (v : value).

(** The outcome of a call that may throw. *)
Inductive result (A : Type) : Type :=
  | Ok (a : A)
  | Throw (e : exn).
Arguments Ok {A} a.
Arguments Throw {A} e.

(** The message V8 attaches to the [TypeError] of [undefined[0]]. *)
Definition typeError_index_undefined : string :=
  "Cannot read properties of undefined (reading '0')".

End Js.
Import Js.

(** ** Shared types ([shared/schema.ts]) *)

Record ColumnInfo := mkColumnInfo {
  cid : value;
  col_name : value;
  col_type : value;
  notnull : value;
  dflt_value : value;
  pk : value
}.

Record QueryResult := mkQueryResult {
  columns : list string;
  values : list (list value)
}.

Record TableSchema := mkTableSchema {
  name : value;
  table_columns : list ColumnInfo;
  rowCount : value
}.

Record DatabaseSchema := mkDatabaseSchema {
  tables : list TableSchema
}.

(** ** Result export: [exportToCSV] *)

Module Csv.

(** [csvRows.push(line)]. *)
Definition push (csvRows : list string) (line : string) : list string :=
  csvRows ++ [line].

(** [exportToCSV(result)], statement by statement. *)
Definition exportToCSV (result : QueryResult) : string :=
  if Nat.eqb (length (columns result)) 0 then EmptyString
  else
    let csvRows := [] in
    let csvRows :=
      push csvRows
        (join "," (map (fun col => dquote +:+ col +:+ dquote) (columns result))) in
    let csvRows :=
      fold_left
        (fun csvRows row =>
           push csvRows
             (join ","
                (map (fun value =>
                        dquote +:+ to_string (nullish value (JStr EmptyString)) +:+ dquote)
                     row)))
        (values result) csvRows in
    join newline csvRows.

(** The document as the specification words it. *)

(** Text form of a cell: empty for [null], the scalar's text otherwise. *)
Definition cell_text (v : value) : string :=
  match v with
  | JNull | JUndefined => EmptyString
  | _ => to_string v
  end.

(** A field is its text between double quotes. *)
Definition quoted (text : string) : string := dquote +:+ text +:+ dquote.

(** A line is its quoted fields separated by commas. *)
Definition csv_line (fields : list string) : string :=
  join "," (map quoted fields).

(** Header line, then one line per data row, separated by newlines; the empty
    string when there is no column. *)
Definition csv_document (result : QueryResult) : string :=
  match columns result with
  | [] => EmptyString
  | _ :: _ =>
      join newline
        (csv_line (columns result)
           :: map (fun row => csv_line (map cell_text row)) (values result))
  end.

(** The query result of the specification's example. *)
Definition example_result : QueryResult :=
  {| columns := ["a"; "b"];
     values := [[JNum 1; JStr "x"]; [JNull; JStr "y"]] |}.

(** Its three lines: header, first row, second row. *)
Definition example_lines : list string :=
  [ dquote +:+ "a" +:+ dquote +:+ "," +:+ dquote +:+ "b" +:+ dquote;
    dquote +:+ "1" +:+ dquote +:+ "," +:+ dquote +:+ "x" +:+ dquote;
    dquote +:+ dquote +:+ "," +:+ dquote +:+ "y" +:+ dquote ].

End Csv.

(** ** The embedded SQL engine (sql.js), as an interface *)

(** One result set of [db.exec]: [{ columns, values }]. *)
Record ExecResult := mkExecResult {
  res_columns : list string;
  res_values : list (list value)
}.

(** What [sqlite-utils.ts] uses of a sql.js database: the constructor over a
    byte image, [exec], [export] and [close].  Each call takes the native
    handle's state and gives the state after the call; [exec] answers with the
    result sets of the statements that produced one, or throws. *)
Class SqlEngine := {
  Db : Type;
  Database_new : list byte -> result Db;
  db_exec : Db -> string -> Db * result (list ExecResult);
  db_export : Db -> Db * list byte;
  db_close : Db -> Db
}.

(** ** [SqliteDatabase] ([client/src/lib/sqlite-utils.ts]) *)

Module SqliteDatabase.
Section WithEngine.
Context {engine : SqlEngine}.

(** Methods run on the wrapped handle [this.db] and may throw. *)
Definition M (A : Type) : Type := Db -> Db * result A.

Definition ret {A} (a : A) : M A := fun d => (d, Ok a).

Definition bind {A B} (m : M A) (k : A -> M B) : M B :=
  fun d =>
    match m d with
    | (d', Ok a) => k a d'
    | (d', Throw e) => (d', Throw e)
    end.

Definition lift {A} (r : result A) : M A := fun d => (d, r).

(** [this.db.exec(sql)]. *)
Definition exec (sql : string) : M (list ExecResult) := fun d => db_exec d sql.

Notation "'let*' x := m 'in' k" := (bind m (fun x => k))
  (at level 10, x name, m at level 100, k at level 200).

(** [static async fromBuffer(buffer)]: the engine module is loaded once and
    the constructor is applied to a byte view of the buffer. *)
Definition fromBuffer (buffer : list byte) : result Db := Database_new buffer.

Definition tablesQuery : string :=
  "SELECT name, sql FROM sqlite_master WHERE type='table' AND name NOT LIKE 'sqlite_%'".

(** [`PRAGMA table_info(${tableName})`]. *)
Definition columnsQuery (tableName : value) : string :=
  "PRAGMA table_info(" +:+ to_string tableName +:+ ")".

(** The text in front of the table name in the row-count query: SELECT,
    COUNT of star, FROM. *)
Definition countPrefix : string :=
  Eval vm_compute in ("SELECT COUNT(" +:+ "*" +:+ ") FROM ").

(** [`${countPrefix}${tableName}`]. *)
Definition countQuery (tableName : value) : string :=
  countPrefix +:+ to_string tableName.

(** The object literal built from one row of [PRAGMA table_info]. *)
Definition column_of_row (row : list value) : ColumnInfo :=
  {| cid := index row 0;
     col_name := index row 1;
     col_type := index row 2;
     notnull := index row 3;
     dflt_value := index row 4;
     pk := index row 5 |}.

(** [columnsResult.length > 0 ? columnsResult[0].values.map(...) : []]. *)
Definition columns_of (columnsResult : list ExecResult) : list ColumnInfo :=
  match columnsResult with
  | [] => []
  | r :: _ => map column_of_row (res_values r)
  end.

(** [countResult.length > 0 ? countResult[0].values[0][0] : 0]; indexing the
    missing first row is a [TypeError]. *)
Definition rowCount_of (countResult : list ExecResult) : result value :=
  match countResult with
  | [] => Ok (JNum 0)
  | r :: _ =>
      match res_values r with
      | [] => Throw (ErrorObj typeError_index_undefined)
      | row :: _ => Ok (index row 0)
      end
  end.

(** The body of [for (const [tableName] of tableRows)], with the array
    [tables] built so far. *)
Fixpoint getSchema_loop (tableRows : list (list value)) (tables : list TableSchema)
  : M (list TableSchema) :=
  match tableRows with
  | [] => ret tables
  | row :: rest =>
      let tableName := index row 0 in
      let* columnsResult := exec (columnsQuery tableName) in
      let columns := columns_of columnsResult in
      let* countResult := exec (countQuery tableName) in
      let* rowCount := lift (rowCount_of countResult) in
      getSchema_loop rest
        (tables ++ [ {| name := tableName; table_columns := columns; rowCount := rowCount |} ])
  end.

(** [getSchema()]. *)
Definition getSchema : M DatabaseSchema :=
  let* tablesResult := exec tablesQuery in
  let* tables := match tablesResult with
                 | [] => ret []
                 | r :: _ => getSchema_loop (res_values r) []
                 end in
  ret {| tables := tables |}.

(** [a || []] where [a] is an array: every array is truthy. *)
Definition or_empty {A} (a : list A) : list A := a.

(** [error instanceof Error ? error.message : 'Unknown error']. *)
Definition message_of (error : exn) : string :=
  match error with
  | ErrorObj message => message
  | NotAnError _ => "Unknown error"
  end.

(** [executeQuery(sql)]. *)
Definition executeQuery (sql : string) : M QueryResult :=
  fun d =>
    match db_exec d sql with
    | (d', Ok result) =>
        match result with
        | [] => (d', Ok {| columns := []; values := [] |})
        | r :: _ =>
            (d', Ok {| columns := or_empty (res_columns r);
                       values := or_empty (res_values r) |})
        end
    | (d', Throw error) =>
        (d', Throw (ErrorObj ("SQL Error: " +:+ message_of error)))
    end.

(** [export()] and [close()]. *)
Definition export (d : Db) : Db * list byte := db_export d.
Definition close (d : Db) : Db := db_close d.

(** *** Observing a handle *)

(** The answers of the engine to a sequence of SQL texts run one after the
    other. *)
Fixpoint run_script (d : Db) (script : list string) : list (result (list ExecResult)) :=
  match script with
  | [] => []
  | sql :: more => let '(d', r) := db_exec d sql in r :: run_script d' more
  end.

(** Two handles hold the same database when no sequence of SQL texts tells
    them apart. *)
Definition same_database (d1 d2 : Db) : Prop :=
  forall script, run_script d1 script = run_script d2 script.

(** *** Introspection, worded apart from the loop of [getSchema] *)

(** The catalog text, and the two texts asked for a table name: the text of
    the name follows the opening words as it is, with no quote around it
    and nothing escaped. *)
Definition catalog_text : string :=
  "SELECT name, sql FROM sqlite_master WHERE type='table' AND name NOT LIKE 'sqlite_%'".

Definition bare_columns_text (n : value) : string :=
  "PRAGMA table_info(" +:+ to_string n +:+ ")".

Definition count_words : string :=
  Eval vm_compute in ("SELECT COUNT(" +:+ "*" +:+ ") FROM ").

Definition bare_count_text (n : value) : string := count_words +:+ to_string n.

(** A column descriptor: ordinal position, name, declared type, not-null
    flag, default value and primary-key flag are the first six cells of a
    row of the column metadata. *)
Definition column_descriptor (row : list value) : ColumnInfo :=
  mkColumnInfo (nth 0 row JUndefined) (nth 1 row JUndefined) (nth 2 row JUndefined)
               (nth 3 row JUndefined) (nth 4 row JUndefined) (nth 5 row JUndefined).

(** The descriptors the engine's answer gives: one per row of its first
    result set, none when it has no result set. *)
Definition answered_columns (answer : list ExecResult) : list ColumnInfo :=
  match answer with
  | first :: _ => map column_descriptor (res_values first)
  | [] => []
  end.

(** The count the engine's answer gives: the first cell of the first row
    of its first result set, 0 when it has no result set; a first result
    set without row is a [TypeError]. *)
Definition answered_count (answer : list ExecResult) : result value :=
  match answer with
  | [] => Ok (JNum 0)
  | first :: _ =>
      match res_values first with
      | row :: _ => Ok (nth 0 row JUndefined)
      | [] => Throw (ErrorObj typeError_index_undefined)
      end
  end.

(** The tables of the names, in order: each name's two bare texts are run
    one after the other on the handle as the texts before left it; the
    first error thrown ends the description with that error. *)
Fixpoint describe_tables (d : Db) (names : list value) : Db * result (list TableSchema) :=
  match names with
  | [] => (d, Ok [])
  | n :: more =>
      match db_exec d (bare_columns_text n) with
      | (d1, Throw e) => (d1, Throw e)
      | (d1, Ok columnsAnswer) =>
          match db_exec d1 (bare_count_text n) with
          | (d2, Throw e) => (d2, Throw e)
          | (d2, Ok countAnswer) =>
              match answered_count countAnswer with
              | Throw e => (d2, Throw e)
              | Ok count =>
                  match describe_tables d2 more with
                  | (d3, Throw e) => (d3, Throw e)
                  | (d3, Ok others) =>
                      (d3, Ok (mkTableSchema n (answered_columns columnsAnswer) count
                                 :: others))
                  end
              end
          end
      end
  end.

(** The schema of a handle: the tables of the names the catalog text
    lists (the first cell of each row of its first result set). *)
Definition introspection (d : Db) : Db * result DatabaseSchema :=
  match db_exec d catalog_text with
  | (d0, Throw e) => (d0, Throw e)
  | (d0, Ok []) => (d0, Ok (mkDatabaseSchema []))
  | (d0, Ok (catalog :: _)) =>
      match describe_tables d0
              (map (fun row => nth 0 row JUndefined) (res_values catalog)) with
      | (d1, Throw e) => (d1, Throw e)
      | (d1, Ok described) => (d1, Ok (mkDatabaseSchema described))
      end
  end.


(** The names the catalog query lists on a handle. *)
Definition catalog_names (d : Db) : list value :=
  match db_exec d tablesQuery with
  | (_, Ok (r :: _)) => map (fun row => index row 0) (res_values r)
  | _ => []
  end.



End WithEngine.
End SqliteDatabase.

(** *** Quoted identifiers

    What a quoting discipline would put in the generated queries in place
    of a name: SQLite reads an identifier between double quotes, between
    backticks or between square brackets, the closing character written
    twice where the name contains it. *)

Module Quoting.

(** [s] with every occurrence of [q] doubled. *)
Fixpoint double_char (q : ascii) (s : string) : string :=
  match s with
  | EmptyString => EmptyString
  | String c rest =>
      if Ascii.eqb c q then String c (String c (double_char q rest))
      else String c (double_char q rest)
  end.

Definition quote_with (opening closing : ascii) (s : string) : string :=
  String opening (double_char closing s) +:+ String closing EmptyString.

Definition quoted_forms (s : string) : list string :=
  [ quote_with dquote_char dquote_char s;
    quote_with "`" "`" s;
    quote_with "[" "]" s ].

(** Names SQLite reads as one identifier without quotes: letters, digits
    and underscores, not starting with a digit.  (Reserved words are among
    them and need quotes all the same.) *)
Definition ident_char (c : ascii) : bool :=
  let n := nat_of_ascii c in
  ((65 <=? n)%nat && (n <=? 90)%nat) || ((97 <=? n)%nat && (n <=? 122)%nat)
  || ((48 <=? n)%nat && (n <=? 57)%nat) || (n =? 95)%nat.

Definition digit_char (c : ascii) : bool :=
  let n := nat_of_ascii c in (48 <=? n)%nat && (n <=? 57)%nat.

Definition bare_identifier (s : string) : bool :=
  match s with
  | EmptyString => false
  | String c _ => negb (digit_char c) && forallb ident_char (list_ascii_of_string s)
  end.

(** A query generator [gen] that writes [before], the name and [after]
    follows the discipline when every name that is not a bare identifier
    appears in one of its quoted forms. *)
Definition quoting_discipline (gen : value -> string) (before after : string) : Prop :=
  forall s, bare_identifier s = false ->
    In (gen (JStr s)) (map (fun q => before +:+ q +:+ after) (quoted_forms s)).

End Quoting.

(** *** A small engine for examples

    A stand-in for sql.js holding one table, with one column [x] and one row
    per byte of the image.  The table is found under its name written bare,
    when the name is a bare identifier, or in one of its quoted forms.  The
    engine knows the catalog query, the column and count queries of its
    table and three more SQL texts, and rejects every other text; inserting
    adds a row. *)

Module StubEngine.
Import SqliteDatabase Quoting.

Definition count_column : string := Eval vm_compute in ("COUNT(" +:+ "*" +:+ ")").

Definition table_info_columns : list string :=
  ["cid"; "name"; "type"; "notnull"; "dflt_value"; "pk"].

(** The spellings under which the table [table] is found. *)
Definition spellings (table : string) : list string :=
  (if bare_identifier table then [table] else []) ++ quoted_forms table.

Definition one_of (sql : string) (texts : list string) : bool :=
  existsb (String.eqb sql) texts.

Definition stub_exec (table : string) (d : list byte) (sql : string)
  : list byte * result (list ExecResult) :=
  if String.eqb sql tablesQuery then
    (d, Ok [ {| res_columns := ["name"; "sql"];
                res_values := [[JStr table; JStr "CREATE TABLE"]] |} ])
  else if one_of sql (map (fun q => columnsQuery (JStr q)) (spellings table)) then
    (d, Ok [ {| res_columns := table_info_columns;
                res_values := [[JNum 0; JStr "x"; JStr "INTEGER"; JNum 0; JNull; JNum 0]] |} ])
  else if one_of sql (map (fun q => countQuery (JStr q)) (spellings table)) then
    (d, Ok [ {| res_columns := [count_column];
                res_values := [[JNum (Z.of_nat (length d))]] |} ])
  else if String.eqb sql "SELECT 1; SELECT 2" then
    (d, Ok [ {| res_columns := ["1"]; res_values := [[JNum 1]] |};
             {| res_columns := ["2"]; res_values := [[JNum 2]] |} ])
  else if String.eqb sql "INSERT INTO t VALUES (7)" then
    (d ++ [x07], Ok [])
  else if String.eqb sql "CREATE TABLE IF NOT EXISTS t(x INTEGER)" then
    (d, Ok [])
  else
    (d, Throw (ErrorObj "syntax error")).

Definition stub_named (table : string) : SqlEngine := {|
  Db := list byte;
  Database_new := fun image => Ok image;
  db_exec := stub_exec table;
  db_export := fun d => (d, d);
  db_close := fun d => d
|}.

(** The engine with the table [t]. *)
#[export] Instance stub : SqlEngine := stub_named "t".

Definition image : list byte := [x01; x02].

End StubEngine.

(** ** The server: upload filter, blob store and routes *)

Module Server.

(** *** Node library functions used by the server *)

(** [String.prototype.toLowerCase] on the ASCII letters.  No character
    outside ASCII lower-cases to one of the letters of the accepted
    extensions, so the other characters are left as they are. *)
Definition lower_char (c : ascii) : ascii :=
  let n := nat_of_ascii c in
  if (65 <=? n)%nat && (n <=? 90)%nat then ascii_of_nat (n + 32) else c.

Fixpoint toLowerCase (s : string) : string :=
  match s with
  | EmptyString => EmptyString
  | String c rest => String (lower_char c) (toLowerCase rest)
  end.

(** [String.prototype.slice(start, end)] for indices within the string. *)
Definition slice (s : string) (start stop : Z) : string :=
  substring (Z.to_nat start) (Z.to_nat (stop - start)) s.

(** The variables of the scan in [path.extname] (POSIX version). *)
Record ExtScan := mkExtScan {
  startDot : Z;
  startPart : Z;
  scan_end : Z;
  matchedSlash : bool;
  preDotState : Z
}.

(** One turn of the scan at index [i] over the character [code]; the flag
    tells whether the loop breaks. *)
Definition extname_step (i : Z) (code : ascii) (s : ExtScan) : ExtScan * bool :=
  if Ascii.eqb code "/" then
    if negb (matchedSlash s) then
      (mkExtScan (startDot s) (i + 1) (scan_end s) (matchedSlash s) (preDotState s), true)
    else (s, false)
  else
    let s :=
      if (scan_end s =? -1)%Z
      then mkExtScan (startDot s) (startPart s) (i + 1) false (preDotState s)
      else s in
    if Ascii.eqb code "." then
      if (startDot s =? -1)%Z then
        (mkExtScan i (startPart s) (scan_end s) (matchedSlash s) (preDotState s), false)
      else if negb (preDotState s =? 1)%Z then
        (mkExtScan (startDot s) (startPart s) (scan_end s) (matchedSlash s) 1, false)
      else (s, false)
    else if negb (startDot s =? -1)%Z then
      (mkExtScan (startDot s) (startPart s) (scan_end s) (matchedSlash s) (-1), false)
    else (s, false).

(** The scan from index [i] down to 0; [codes] are the characters at
    [i], [i-1], ..., 0. *)
Fixpoint extname_scan (codes : list ascii) (i : Z) (s : ExtScan) : ExtScan :=
  match codes with
  | [] => s
  | code :: more =>
      let '(s', stop) := extname_step i code s in
      if stop then s' else extname_scan more (i - 1) s'
  end.

(** [path.extname(path)]. *)
Definition extname (path : string) : string :=
  let s :=
    extname_scan (rev (list_ascii_of_string path))
      (Z.of_nat (String.length path) - 1)
      (mkExtScan (-1) 0 (-1) true 0) in
  if (startDot s =? -1)%Z
     || (scan_end s =? -1)%Z
     || (preDotState s =? 0)%Z
     || ((preDotState s =? 1)%Z
         && (startDot s =? scan_end s - 1)%Z
         && (startDot s =? startPart s + 1)%Z)
  then EmptyString
  else slice path (startDot s) (scan_end s).

(** [Array.prototype.includes] on an array of strings. *)
Definition includes (arr : list string) (x : string) : bool :=
  existsb (String.eqb x) arr.

(** The Node services [storage.ts] calls: the synchronous file-system
    functions over the state of the disk, [path.join] and [process.cwd()]. *)
Class NodeEnv := {
  Disk : Type;
  existsSync : Disk -> string -> bool;
  readFileSync : Disk -> string -> result (list byte);
  writeFileSync : Disk -> string -> list byte -> Disk * result unit;
  unlinkSync : Disk -> string -> Disk * result unit;
  path_join : string -> string -> string;
  cwd : string
}.

(** *** Records ([shared/schema.ts]) *)

Record InsertSqliteFile := mkInsertSqliteFile {
  ins_filename : string;
  ins_originalName : string;
  ins_fileSize : Z
}.

Record SqliteFile := mkSqliteFile {
  id : string;
  filename : string;
  originalName : string;
  fileSize : Z;
  uploadedAt : Z
}.

(** *** The upload filter ([routes.ts], [const upload = multer({...})]) *)

Definition allowedExts : list string := [".db"; ".sqlite"; ".sqlite3"].

Definition filter_message : string :=
  "Only SQLite files (.db, .sqlite, .sqlite3) are allowed".

(** [fileFilter]: [cb(null, true)] is [Ok true], [cb(new Error(...))] is a
    [Throw]. *)
Definition fileFilter (originalname : string) : result bool :=
  let ext := toLowerCase (extname originalname) in
  if includes allowedExts ext then Ok true
  else Throw (ErrorObj filter_message).

(** [limits.fileSize]. *)
Definition fileSize_limit : Z := 100 * 1024 * 1024.

(** The file part of a multipart request as busboy hands it to multer: its
    name (the base name of the part's filename, empty when that filename is
    empty, [.] or [..]), its bytes and their number (multer's [file.size]). *)
Record UploadedFile := mkUploadedFile {
  originalname : string;
  buffer : list byte;
  size : Z
}.

(** The middleware [upload.single('file')], as multer does it: no file
    part, or a part with an empty name ([if (!filename) return
    fileStream.resume()]), leaves [req.file] undefined; an error of the
    filter, or a file larger than the limit, is passed to [next] and the
    route handler does not run. *)
Definition upload_single (part : option UploadedFile) : result (option UploadedFile) :=
  match part with
  | None => Ok None
  | Some f =>
      if String.eqb (originalname f) EmptyString then Ok None
      else
        match fileFilter (originalname f) with
        | Throw e => Throw e
        | Ok false => Ok None
        | Ok true =>
            if (fileSize_limit <? size f)%Z then Throw (ErrorObj "File too large")
            else Ok (Some f)
        end
  end.

(** *** [MemStorage] ([server/storage.ts]) *)

Section WithNode.
Context {node : NodeEnv}.

(** The two maps of the object, and the disk its methods act on. *)
Record MemStorage := mkMemStorage {
  files : gmap string SqliteFile;
  fileBuffers : gmap string (list byte);
  disk : Disk
}.

(** [this.uploadsDir]. *)
Definition uploadsDir : string := path_join cwd "uploads".

Definition set_disk (st : MemStorage) (dk : Disk) : MemStorage :=
  mkMemStorage (files st) (fileBuffers st) dk.

(** [getSqliteFile(id)]. *)
Definition getSqliteFile (st : MemStorage) (id : string) : option SqliteFile :=
  files st !! id.

(** [createSqliteFile(insertFile)]; [uuid] is what [randomUUID()] returns and
    [now] what [new Date()] reads. *)
Definition createSqliteFile (st : MemStorage) (insertFile : InsertSqliteFile)
    (uuid : string) (now : Z) : MemStorage * SqliteFile :=
  let id := uuid in
  let file :=
    {| id := id;
       filename := ins_filename insertFile;
       originalName := ins_originalName insertFile;
       fileSize := ins_fileSize insertFile;
       uploadedAt := now |} in
  (mkMemStorage (<[id := file]> (files st)) (fileBuffers st) (disk st), file).

(** [deleteSqliteFile(id)]. *)
Definition deleteSqliteFile (st : MemStorage) (id : string) : MemStorage * result unit :=
  match files st !! id with
  | Some file =>
      let filePath := path_join uploadsDir (filename file) in
      let '(dk, unlinked) :=
        if existsSync (disk st) filePath then unlinkSync (disk st) filePath
        else (disk st, Ok tt) in
      match unlinked with
      | Throw e => (set_disk st dk, Throw e)
      | Ok _ =>
          (mkMemStorage (delete id (files st))
                        (delete (filename file) (fileBuffers st)) dk,
           Ok tt)
      end
  | None => (st, Ok tt)
  end.

(** [getFileBuffer(filename)]. *)
Definition getFileBuffer (st : MemStorage) (filename : string)
  : MemStorage * result (list byte) :=
  match fileBuffers st !! filename with
  | Some cached => (st, Ok cached)
  | None =>
      let filePath := path_join uploadsDir filename in
      if existsSync (disk st) filePath then
        match readFileSync (disk st) filePath with
        | Ok buffer =>
            (mkMemStorage (files st) (<[filename := buffer]> (fileBuffers st)) (disk st),
             Ok buffer)
        | Throw e => (st, Throw e)
        end
      else (st, Throw (ErrorObj "File not found"))
  end.

(** [saveFileBuffer(filename, buffer)]. *)
Definition saveFileBuffer (st : MemStorage) (filename : string) (buffer : list byte)
  : MemStorage * result unit :=
  let filePath := path_join uploadsDir filename in
  match writeFileSync (disk st) filePath buffer with
  | (dk, Throw e) => (set_disk st dk, Throw e)
  | (dk, Ok _) =>
      (mkMemStorage (files st) (<[filename := buffer]> (fileBuffers st)) dk, Ok tt)
  end.

(** *** Routes ([server/routes.ts]) *)

(** The JSON bodies the two routes send. *)
Inductive Body : Type :=
  | MessageBody (message : string)
  | FileBody (success : bool) (file : SqliteFile)
  | SuccessBody (success : bool).

(** What becomes of a request: the route answers with a status and a body,
    or a middleware hands an error to the framework ([next(err)]) and the
    route handler never runs. *)
Inductive Outcome : Type :=
  | Responded (status : Z) (body : Body)
  | Forwarded (e : exn).

(** [insertSqliteFileSchema.parse(fileData)]: the three fields are of the
    declared types, so the parse gives the record back. *)
Definition parse_insert (filename originalName : string) (fileSize : Z) : InsertSqliteFile :=
  mkInsertSqliteFile filename originalName fileSize.

(** The handler of [POST /api/sqlite/upload], on the [req.file] multer left.
    [uuid1] and [uuid2] are the two values of [randomUUID()]. *)
Definition upload_handler (st : MemStorage) (file : option UploadedFile)
    (uuid1 uuid2 : string) (now : Z) : MemStorage * Outcome :=
  match file with
  | None => (st, Responded 400 (MessageBody "No file uploaded"))
  | Some f =>
      let filename := uuid1 +:+ "_" +:+ originalname f in
      match saveFileBuffer st filename (buffer f) with
      | (st1, Throw error) =>
          (st1, Responded 500 (MessageBody
                  match error with
                  | ErrorObj message => message
                  | NotAnError _ => "Upload failed"
                  end))
      | (st1, Ok _) =>
          let validatedData := parse_insert filename (originalname f) (size f) in
          let '(st2, sqliteFile) := createSqliteFile st1 validatedData uuid2 now in
          (st2, Responded 200 (FileBody true sqliteFile))
      end
  end.

(** [app.post("/api/sqlite/upload", upload.single('file'), handler)]. *)
Definition upload_route (st : MemStorage) (part : option UploadedFile)
    (uuid1 uuid2 : string) (now : Z) : MemStorage * Outcome :=
  match upload_single part with
  | Throw e => (st, Forwarded e)
  | Ok file => upload_handler st file uuid1 uuid2 now
  end.

(** [app.delete("/api/sqlite/:id", handler)]. *)
Definition delete_route (st : MemStorage) (id : string) : MemStorage * Outcome :=
  match deleteSqliteFile st id with
  | (st', Ok _) => (st', Responded 200 (SuccessBody true))
  | (st', Throw error) =>
      (st', Responded 500 (MessageBody
              match error with
              | ErrorObj message => message
              | NotAnError _ => "Delete failed"
              end))
  end.

End WithNode.

(** *** A disk for examples: paths to contents, no failing call. *)

Module MapDisk.

#[export] Instance node : NodeEnv := {|
  Disk := gmap string (list byte);
  existsSync := fun dk p => bool_decide (is_Some (dk !! p));
  readFileSync := fun dk p =>
    match dk !! p with
    | Some b => Ok b
    | None => Throw (ErrorObj "ENOENT: no such file or directory")
    end;
  writeFileSync := fun dk p b => (<[p := b]> dk, Ok tt);
  unlinkSync := fun dk p => (delete p dk, Ok tt);
  path_join := fun a b => a +:+ "/" +:+ b;
  cwd := "/srv/app"
|}.

Definition empty_storage : MemStorage := mkMemStorage ∅ ∅ ∅.

End MapDisk.

(** *** File names and the accepted suffixes *)

(** The name, lower-cased, ends with one of the accepted extensions. *)
Definition has_allowed_suffix (originalname : string) : Prop :=
  exists ext, In ext allowedExts /\
    list_ascii_of_string ext `suffix_of` list_ascii_of_string (toLowerCase originalname).

(** The name has no path separator (multer keeps the base name only). *)
Definition no_separator (originalname : string) : Prop :=
  ~ In "/"%char (list_ascii_of_string originalname).

(** The upload requests the specification wants refused: no file part, a
    file whose name does not end with an accepted extension, a file over the
    size limit. *)
Inductive refused_upload : option UploadedFile -> Prop :=
  | refused_no_file : refused_upload None
  | refused_suffix f :
      no_separator (originalname f) -> ~ has_allowed_suffix (originalname f) ->
      refused_upload (Some f)
  | refused_size f :
      (fileSize_limit < size f)%Z -> refused_upload (Some f).

(** *** The two routes that serve a stored file ([server/routes.ts]) *)

Section ServeRoutes.
Context {node : NodeEnv}.

(** What [GET /api/sqlite/:id/download] and [GET /api/sqlite/:id/buffer]
    send: the bytes with the headers set before [res.send], or a status with
    a JSON message. *)
Inductive Reply : Type :=
  | SendBuffer (headers : list (string * string)) (body : list byte)
  | SendJson (status : Z) (message : string).

(** [`attachment; filename="${file.originalName}"`]. *)
Definition attachment (originalName : string) : string :=
  "attachment; filename=" +:+ dquote +:+ originalName +:+ dquote.

(** A continuation byte of UTF-8. *)
Definition continuation_byte (c : ascii) : bool :=
  (128 <=? nat_of_ascii c)%nat && (nat_of_ascii c <=? 191)%nat.

(** The value of a header is accepted by [res.setHeader] when each of its
    characters is a tab or lies in U+0020..U+007E or U+0080..U+00FF; in
    UTF-8 these are the bytes 9 and 32..126 and the two-byte characters
    that start with the byte 194 or 195. *)
Fixpoint valid_header_value (s : string) : bool :=
  match s with
  | EmptyString => true
  | String c rest =>
      let n := nat_of_ascii c in
      if (n =? 9)%nat || ((32 <=? n)%nat && (n <=? 126)%nat) then valid_header_value rest
      else if (n =? 194)%nat || (n =? 195)%nat then
        match rest with
        | String c2 rest' => continuation_byte c2 && valid_header_value rest'
        | EmptyString => false
        end
      else false
  end.

(** The message of the [TypeError] that [res.setHeader] throws on another
    value of [Content-Disposition]. *)
Definition invalid_header_message : string :=
  "Invalid character in header content [" +:+ dquote +:+ "Content-Disposition"
  +:+ dquote +:+ "]".

(** [app.get("/api/sqlite/:id/download", handler)]. *)
Definition download_route (st : MemStorage) (id : string) : MemStorage * Reply :=
  match getSqliteFile st id with
  | None => (st, SendJson 404 "File not found")
  | Some file =>
      match getFileBuffer st (filename file) with
      | (st', Ok buffer) =>
          if valid_header_value (attachment (originalName file)) then
            (st', SendBuffer [ ("Content-Type", "application/x-sqlite3");
                               ("Content-Disposition", attachment (originalName file)) ]
                             buffer)
          else (st', SendJson 500 invalid_header_message)
      | (st', Throw error) =>
          (st', SendJson 500
                  match error with
                  | ErrorObj message => message
                  | NotAnError _ => "Download failed"
                  end)
      end
  end.

(** [app.get("/api/sqlite/:id/buffer", handler)]. *)
Definition buffer_route (st : MemStorage) (id : string) : MemStorage * Reply :=
  match getSqliteFile st id with
  | None => (st, SendJson 404 "File not found")
  | Some file =>
      match getFileBuffer st (filename file) with
      | (st', Ok buffer) =>
          (st', SendBuffer [ ("Content-Type", "application/octet-stream") ] buffer)
      | (st', Throw error) =>
          (st', SendJson 500
                  match error with
                  | ErrorObj message => message
                  | NotAnError _ => "Failed to fetch file"
                  end)
      end
  end.

End ServeRoutes.

(** The bytes a reply carries, if it carries any. *)
Definition reply_bytes (r : Reply) : option (list byte) :=
  match r with
  | SendBuffer _ body => Some body
  | SendJson _ _ => None
  end.

(** A name made of a stem and an extension: the extension is a dot followed
    by characters that are neither dots nor separators. *)
Definition plain_char (c : ascii) : bool :=
  negb (Ascii.eqb c ".") && negb (Ascii.eqb c "/").

Definition extension_shaped (ext : string) : bool :=
  match ext with
  | String "." rest => forallb plain_char (list_ascii_of_string rest)
  | _ => false
  end.

End Server.
Import Server SqliteDatabase.

(** ** More JavaScript string primitives *)

Module Text.

(** The number of occurrences of a character in a string. *)
Fixpoint count_char (c : ascii) (s : string) : nat :=
  match s with
  | EmptyString => 0
  | String x rest => (if Ascii.eqb x c then 1 else 0) + count_char c rest
  end.

(** [s.split('\n')]: the pieces between line feeds, at least one. *)
Fixpoint split_lines (s : string) : list string :=
  match s with
  | EmptyString => [EmptyString]
  | String c rest =>
      if Ascii.eqb c newline_char then EmptyString :: split_lines rest
      else
        match split_lines rest with
        | line :: lines => String c line :: lines
        | [] => [String c EmptyString]
        end
  end.

(** [s.includes(pattern)]. *)
Fixpoint str_includes (s pattern : string) : bool :=
  String.prefix pattern s
  || match s with
     | EmptyString => false
     | String _ rest => str_includes rest pattern
     end.

(** [Array.prototype.slice(start, end)]: negative indices count from the
    end, indices past the end are clamped. *)
Definition js_slice {A} (l : list A) (start stop : Z) : list A :=
  let len := Z.of_nat (length l) in
  let k := if (start <? 0)%Z then Z.max (len + start) 0 else Z.min start len in
  let final := if (stop <? 0)%Z then Z.max (len + stop) 0 else Z.min stop len in
  take (Z.to_nat (final - k)) (drop (Z.to_nat k) l).

End Text.
Import Text.

(** ** The results table (component [ResultsTable]) *)

Module ResultsTable.

Definition ROWS_PER_PAGE : Z := 50.

(** [result?.values.length || 0]. *)
Definition totalRows (result : option QueryResult) : Z :=
  match result with
  | Some r => Z.of_nat (length (values r))
  | None => 0
  end.

(** [Math.ceil(totalRows / ROWS_PER_PAGE)], on the integers. *)
Definition totalPages (result : option QueryResult) : Z :=
  (- ((- totalRows result) / ROWS_PER_PAGE))%Z.

(** [(currentPage - 1) * ROWS_PER_PAGE]. *)
Definition startIndex (currentPage : Z) : Z := ((currentPage - 1) * ROWS_PER_PAGE)%Z.

(** [Math.min(startIndex + ROWS_PER_PAGE, totalRows)]. *)
Definition endIndex (result : option QueryResult) (currentPage : Z) : Z :=
  Z.min (startIndex currentPage + ROWS_PER_PAGE) (totalRows result).

(** [result?.values.slice(startIndex, endIndex) || []]. *)
Definition currentRows (result : option QueryResult) (currentPage : Z) : list (list value) :=
  match result with
  | Some r => js_slice (values r) (startIndex currentPage) (endIndex result currentPage)
  | None => []
  end.

(** [goToPage(page)]: the page [setCurrentPage] receives. *)
Definition goToPage (result : option QueryResult) (page : Z) : Z :=
  Z.max 1 (Z.min page (totalPages result)).

(** The pages [1 .. n]. *)
Definition pages (n : Z) : list Z := map (fun k => Z.of_nat k) (seq 1 (Z.to_nat n)).

End ResultsTable.

(** ** The SQL editor (component [SqlEditor]) *)

Module SqlEditor.

(** [getLineNumbers()]: [sql.split('\n').map((_, index) => index + 1)]. *)
Definition getLineNumbers (sql : string) : list nat :=
  map (fun index => index + 1) (seq 0 (length (split_lines sql))).

(** [updateCursorPosition()] on a textarea holding [value] with the caret at
    [selectionStart]: the line and the column it sets.  Positions count the
    characters of the string as it is kept, which are the units JavaScript
    counts on a text of one-byte characters. *)
Definition updateCursorPosition (value : string) (selectionStart : nat) : nat * nat :=
  let cursorPos := selectionStart in
  let textBeforeCursor := substring 0 cursorPos value in
  let lines := split_lines textBeforeCursor in
  let line := length lines in
  let column := String.length (nth (length lines - 1) lines EmptyString) + 1 in
  (line, column).

End SqlEditor.

(** ** The schema tree (component [SchemaBrowser]) *)

Module SchemaBrowser.

(** [toggleTable(tableName)]: the set [setExpandedTables] receives. *)
Definition toggleTable (expandedTables : gset string) (tableName : string) : gset string :=
  let newExpanded := expandedTables in
  if decide (tableName ∈ newExpanded) then newExpanded ∖ {[ tableName ]}
  else newExpanded ∪ {[ tableName ]}.

End SchemaBrowser.

(** ** More on the CSV export *)

Module CsvCells.

(** A query result with every null cell replaced by the empty string. *)
Definition blank (v : value) : value :=
  match v with
  | JNull | JUndefined => JStr EmptyString
  | _ => v
  end.

Definition blank_nulls (result : QueryResult) : QueryResult :=
  {| columns := columns result; values := map (map blank) (values result) |}.

(** A text with the three characters double quote, comma, double quote in
    the middle. *)
Definition glued (s t : string) : string := s +:+ dquote +:+ "," +:+ dquote +:+ t.

(** No line feed in a column name or in the text of a cell. *)
Definition single_line (result : QueryResult) : Prop :=
  (forall col, In col (columns result) -> count_char newline_char col = 0)
  /\ (forall row v, In row (values result) -> In v row ->
        count_char newline_char (to_string v) = 0).

End CsvCells.

(** ** The editor page (component [SqliteEditor]) *)

Module SqliteEditor.

(** A call of [toast({ title, description, variant })]. *)
Record Toast := mkToast {
  title : string;
  description : string;
  variant : option string
}.

(** A quotient of two integers, kept as it is. *)
Record Fraction := mkFraction {
  numerator : Z;
  denominator : Z
}.

Record DatabaseInfo := mkDatabaseInfo {
  info_name : string;
  info_size : string;
  tableCount : nat
}.

(** What a field of the insert form holds: a text, a number or null as a
    cell has them, or the boolean of a checkbox. *)
Inductive FormValue : Type :=
  | FCell (v : value)
  | FBool (b : bool).

(** [typeof value === 'string']. *)
Definition is_string (v : FormValue) : bool :=
  match v with
  | FCell (JStr _) => true
  | _ => false
  end.

(** [value !== '']. *)
Definition not_empty_string (v : FormValue) : bool :=
  match v with
  | FCell (JStr EmptyString) => false
  | _ => true
  end.

(** The text [Array.prototype.join] writes for an element: nothing for null
    and undefined, [ToString] otherwise. *)
Definition element_text (v : FormValue) : string :=
  match v with
  | FCell JNull | FCell JUndefined => EmptyString
  | FCell c => to_string c
  | FBool true => "true"
  | FBool false => "false"
  end.

(** The form data, as the entries of the object in the order of
    [Object.keys]; [data[key]] is the value of the first entry with that
    key, [undefined] without one. *)
Definition field (data : list (string * FormValue)) (key : string) : FormValue :=
  match List.find (fun entry => String.eqb (fst entry) key) data with
  | Some entry => snd entry
  | None => FCell JUndefined
  end.

(** [value.replace(/'/g, "''")]. *)
Fixpoint escape_quotes (s : string) : string :=
  match s with
  | EmptyString => EmptyString
  | String c rest =>
      if Ascii.eqb c "'" then String "'" (String "'" (escape_quotes rest))
      else String c (escape_quotes rest)
  end.

(** [`'${value.replace(/'/g, "''")}'`]. *)
Definition sql_literal (s : string) : string :=
  "'" +:+ escape_quotes s +:+ "'".

(** [Object.keys(data).filter(key => data[key] !== '')]. *)
Definition insert_columns (data : list (string * FormValue)) : list string :=
  List.filter (fun key => not_empty_string (field data key)) (map fst data).

(** [columns.map(col => ...)]: a text becomes a SQL literal, any other value
    is kept. *)
Definition insert_values (data : list (string * FormValue)) : list FormValue :=
  map (fun col =>
         let value := field data col in
         match value with
         | FCell (JStr s) => FCell (JStr (sql_literal s))
         | _ => value
         end)
      (insert_columns data).

(** The INSERT statement of [handleCrudSubmit]. *)
Definition insert_statement (tableName : string) (data : list (string * FormValue)) : string :=
  "INSERT INTO " +:+ tableName +:+ " (" +:+ join ", " (insert_columns data)
  +:+ ") VALUES (" +:+ join ", " (map element_text (insert_values data)) +:+ ");".

(** [`SELECT * FROM ${tableName} LIMIT 100;`]. *)
Definition select_page (tableName : string) : string :=
  "SELECT * FROM " +:+ tableName +:+ " LIMIT 100;".

(** How SQL reads a string literal: after the opening quote, two quotes in
    a row stand for one quote and a single quote ends the literal.  The
    result is the text read and what follows the literal. *)
Fixpoint read_quoted (s : string) : option (string * string) :=
  match s with
  | EmptyString => None
  | String c rest =>
      if Ascii.eqb c "'" then
        match rest with
        | String c' rest' =>
            if Ascii.eqb c' "'" then
              match read_quoted rest' with
              | Some (text, after) => Some (String "'" text, after)
              | None => None
              end
            else Some (EmptyString, rest)
        | EmptyString => Some (EmptyString, rest)
        end
      else
        match read_quoted rest with
        | Some (text, after) => Some (String c text, after)
        | None => None
        end
  end.

Definition read_literal (s : string) : option (string * string) :=
  match s with
  | String "'" rest => read_quoted rest
  | _ => None
  end.

(** The test that decides a schema refresh: the lower-cased text includes
    [create], [drop] or [alter].  (No character outside ASCII lower-cases
    to a letter of these words.) *)
Definition needs_refresh (sql : string) : bool :=
  str_includes (toLowerCase sql) "create"
  || str_includes (toLowerCase sql) "drop"
  || str_includes (toLowerCase sql) "alter".

Definition refresh_words : list string := ["create"; "drop"; "alter"].

(** The SQL text holds a refresh word somewhere, in some letter case. *)
Definition mentions_refresh_word (sql : string) : Prop :=
  exists before word after,
    sql = before +:+ word +:+ after /\ In (toLowerCase word) refresh_words.

(** The form entry of a key and the text typed for it. *)
Definition text_entry (entry : string * string) : string * FormValue :=
  (fst entry, FCell (JStr (snd entry))).

(** How SQL reads a list of string literals separated by a comma and a
    space: at most [n] literals, until a literal is followed by something
    else; the texts read and what follows the last literal. *)
Fixpoint read_values (n : nat) (s : string) : option (list string * string) :=
  match n with
  | O => Some ([], s)
  | S n' =>
      match read_literal s with
      | None => Some ([], s)
      | Some (text, after) =>
          match after with
          | String "," (String " " more) =>
              match read_values n' more with
              | Some (texts, rest) => Some (text :: texts, rest)
              | None => None
              end
          | _ => Some ([text], after)
          end
      end
  end.

Section WithEngine.
Context {engine : SqlEngine}.

(** The state variables of the page, and the toasts shown so far.  The
    field [database] is the state of the handle the page holds. *)
Record State := mkState {
  currentFileId : option string;
  database : option Db;
  schema : option DatabaseSchema;
  selectedTable : option string;
  queryResult : option QueryResult;
  queryError : option string;
  executionTime : option Fraction;
  isExecuting : bool;
  activeTab : string;
  isCrudModalOpen : bool;
  databaseInfo : option DatabaseInfo;
  toasts : list Toast
}.

Definition toast (st : State) (t : Toast) : State :=
  mkState (currentFileId st) (database st) (schema st) (selectedTable st)
          (queryResult st) (queryError st) (executionTime st) (isExecuting st)
          (activeTab st) (isCrudModalOpen st) (databaseInfo st) (toasts st ++ [t]).

Definition setDatabase (st : State) (v : option Db) : State :=
  mkState (currentFileId st) v (schema st) (selectedTable st)
          (queryResult st) (queryError st) (executionTime st) (isExecuting st)
          (activeTab st) (isCrudModalOpen st) (databaseInfo st) (toasts st).

Definition setCurrentFileId (st : State) (v : option string) : State :=
  mkState v (database st) (schema st) (selectedTable st)
          (queryResult st) (queryError st) (executionTime st) (isExecuting st)
          (activeTab st) (isCrudModalOpen st) (databaseInfo st) (toasts st).

Definition setSchema (st : State) (v : option DatabaseSchema) : State :=
  mkState (currentFileId st) (database st) v (selectedTable st)
          (queryResult st) (queryError st) (executionTime st) (isExecuting st)
          (activeTab st) (isCrudModalOpen st) (databaseInfo st) (toasts st).

Definition setSelectedTable (st : State) (v : option string) : State :=
  mkState (currentFileId st) (database st) (schema st) v
          (queryResult st) (queryError st) (executionTime st) (isExecuting st)
          (activeTab st) (isCrudModalOpen st) (databaseInfo st) (toasts st).

Definition setQueryResult (st : State) (v : option QueryResult) : State :=
  mkState (currentFileId st) (database st) (schema st) (selectedTable st)
          v (queryError st) (executionTime st) (isExecuting st)
          (activeTab st) (isCrudModalOpen st) (databaseInfo st) (toasts st).

Definition setQueryError (st : State) (v : option string) : State :=
  mkState (currentFileId st) (database st) (schema st) (selectedTable st)
          (queryResult st) v (executionTime st) (isExecuting st)
          (activeTab st) (isCrudModalOpen st) (databaseInfo st) (toasts st).

Definition setExecutionTime (st : State) (v : option Fraction) : State :=
  mkState (currentFileId st) (database st) (schema st) (selectedTable st)
          (queryResult st) (queryError st) v (isExecuting st)
          (activeTab st) (isCrudModalOpen st) (databaseInfo st) (toasts st).

Definition setIsExecuting (st : State) (v : bool) : State :=
  mkState (currentFileId st) (database st) (schema st) (selectedTable st)
          (queryResult st) (queryError st) (executionTime st) v
          (activeTab st) (isCrudModalOpen st) (databaseInfo st) (toasts st).

Definition setActiveTab (st : State) (v : string) : State :=
  mkState (currentFileId st) (database st) (schema st) (selectedTable st)
          (queryResult st) (queryError st) (executionTime st) (isExecuting st)
          v (isCrudModalOpen st) (databaseInfo st) (toasts st).

Definition setDatabaseInfo (st : State) (v : option DatabaseInfo) : State :=
  mkState (currentFileId st) (database st) (schema st) (selectedTable st)
          (queryResult st) (queryError st) (executionTime st) (isExecuting st)
          (activeTab st) (isCrudModalOpen st) v (toasts st).

(** [error instanceof Error ? error.message : fallback]. *)
Definition message_or (error : exn) (fallback : string) : string :=
  match error with
  | ErrorObj message => message
  | NotAnError _ => fallback
  end.

Definition destructive (t d : string) : Toast := mkToast t d (Some "destructive").

(** [handleExecuteQuery(sql)]; [startTime] and [endTime] are the two
    readings of [performance.now()]. *)
Definition handleExecuteQuery (st : State) (sql : string) (startTime endTime : Z) : State :=
  match database st with
  | None => toast st (destructive "Error" "No database loaded")
  | Some d =>
      let st := setIsExecuting st true in
      let st := setQueryError st None in
      match executeQuery sql d with
      | (d1, Ok result) =>
          let st := setDatabase st (Some d1) in
          let st := setQueryResult st (Some result) in
          let st := setExecutionTime st (Some (mkFraction (endTime - startTime) 1000)) in
          if needs_refresh sql then
            match getSchema d1 with
            | (d2, Ok newSchema) =>
                let st := setDatabase st (Some d2) in
                let st := setSchema st (Some newSchema) in
                setIsExecuting st false
            | (d2, Throw error) =>
                let st := setDatabase st (Some d2) in
                let st := setQueryError st (Some (message_or error "Query execution failed")) in
                let st := setQueryResult st None in
                setIsExecuting st false
            end
          else setIsExecuting st false
      | (d1, Throw error) =>
          let st := setDatabase st (Some d1) in
          let st := setQueryError st (Some (message_or error "Query execution failed")) in
          let st := setQueryResult st None in
          setIsExecuting st false
      end
  end.

(** [selectedTable === tableName]. *)
Definition is_selected (st : State) (tableName : string) : bool :=
  match selectedTable st with
  | Some t => String.eqb t tableName
  | None => false
  end.

(** [handleTableSelect(tableName)]. *)
Definition handleTableSelect (st : State) (tableName : string) (startTime endTime : Z) : State :=
  let st' := setSelectedTable st (Some tableName) in
  if String.eqb (activeTab st) "browse"
  then handleExecuteQuery st' (select_page tableName) startTime endTime
  else st'.

(** [handleCrudSubmit(tableName, data)]; the four clock readings are those
    of the two calls of [handleExecuteQuery]. *)
Definition handleCrudSubmit (st : State) (tableName : string)
    (data : list (string * FormValue)) (t1 t2 t3 t4 : Z) : State :=
  match database st with
  | None => st
  | Some _ =>
      let sql := insert_statement tableName data in
      let st1 := handleExecuteQuery st sql t1 t2 in
      let st2 :=
        if is_selected st tableName && String.eqb (activeTab st) "browse"
        then handleExecuteQuery st1 (select_page tableName) t3 t4
        else st1 in
      toast st2 (mkToast "Success" "Record inserted successfully" None)
  end.

(** [handleNewDatabase()]: the handle is closed and let go. *)
Definition handleNewDatabase (st : State) : State :=
  let st := setDatabase st None in
  let st := setSchema st None in
  let st := setCurrentFileId st None in
  let st := setSelectedTable st None in
  let st := setQueryResult st None in
  let st := setQueryError st None in
  let st := setDatabaseInfo st None in
  setActiveTab st "query".

(** [loadDatabaseMutation.onSuccess(buffer, fileId)].  [size_label] is the
    text of [(buffer.byteLength / 1024 / 1024).toFixed(1)], a floating-point
    formatting taken as given. *)
Definition loadDatabase_onSuccess (size_label : nat -> string) (st : State)
    (buffer : list byte) (fileId : string) : State :=
  match fromBuffer buffer with
  | Throw _ => toast st (destructive "Error" "Failed to parse SQLite database")
  | Ok db =>
      let st := setDatabase st (Some db) in
      let st := setCurrentFileId st (Some fileId) in
      match getSchema db with
      | (db', Ok dbSchema) =>
          let st := setDatabase st (Some db') in
          let st := setSchema st (Some dbSchema) in
          let st :=
            setDatabaseInfo st
              (Some (mkDatabaseInfo "database.db"
                       (size_label (length buffer) +:+ " MB")
                       (length (tables dbSchema)))) in
          toast st (mkToast "Success" "Database loaded successfully" None)
      | (db', Throw _) =>
          let st := setDatabase st (Some db') in
          toast st (destructive "Error" "Failed to parse SQLite database")
      end
  end.

End WithEngine.
End SqliteEditor.

(** ** Inputs for the examples *)

Module Fixtures.
Import Server SqliteEditor.

(** A disk on which nothing can be written or removed. *)
Definition locked : NodeEnv := {|
  Disk := gmap string (list byte);
  existsSync := fun dk p => bool_decide (is_Some (dk !! p));
  readFileSync := fun dk p =>
    match dk !! p with
    | Some b => Ok b
    | None => Throw (ErrorObj "ENOENT: no such file or directory")
    end;
  writeFileSync := fun dk p b => (dk, Throw (ErrorObj "EACCES: permission denied"));
  unlinkSync := fun dk p => (dk, Throw (ErrorObj "EACCES: permission denied"));
  path_join := fun a b => a +:+ "/" +:+ b;
  cwd := "/srv/app"
|}.

Definition shop : UploadedFile := mkUploadedFile "shop.DB" [x01; x02] 2.

Definition shop_record : SqliteFile :=
  {| id := "a"; filename := "f.db"; originalName := "shop.db";
     fileSize := 2; uploadedAt := 0 |}.

(** A store with one record and neither cache entry nor file. *)
Definition orphan_store : MemStorage (node := MapDisk.node) :=
  mkMemStorage (node := MapDisk.node) {[ "a" := shop_record ]} ∅ ∅.

(** A store with one file on disk that is not cached. *)
Definition cold_store : MemStorage (node := MapDisk.node) :=
  mkMemStorage (node := MapDisk.node) ∅ ∅ {[ "/srv/app/uploads/f.db" := [x01] ]}.

(** A store on the locked disk, with one record and its file. *)
Definition locked_store : MemStorage (node := locked) :=
  mkMemStorage (node := locked) {[ "a" := shop_record ]} ∅
               {[ "/srv/app/uploads/f.db" := [x01] ]}.

(** The page as [useState] initialises it, with a database loaded. *)
Definition page {engine : SqlEngine} (d : Db) : State :=
  mkState None (Some d) None None None None None false "query" false None [].

End Fixtures.

(** * Properties *)

(** ** Result export *)

Section CsvFacts.
Import Csv.

(** The loop of [exportToCSV] appends one line per row, in order. *)
Lemma fold_push_lines (line_of : list value -> string) (rows : list (list value))
    (csvRows : list string) :
  fold_left (fun acc row => push acc (line_of row)) rows csvRows
  = csvRows ++ map line_of rows.
Proof.
  revert csvRows.
  induction rows as [|row rows IH]; intros csvRows; simpl.
  - by rewrite app_nil_r.
  - rewrite IH. unfold push. by rewrite <- app_assoc.
Qed.

(** The field the code writes for a cell is the quoted text form of the
    cell. *)
Lemma field_of_cell (v : value) :
  dquote +:+ to_string (nullish v (JStr EmptyString)) +:+ dquote = quoted (cell_text v).
Proof. by destruct v. Qed.

Lemma row_line (row : list value) :
  join "," (map (fun value =>
                   dquote +:+ to_string (nullish value (JStr EmptyString)) +:+ dquote) row)
  = csv_line (map cell_text row).
Proof.
  unfold csv_line. f_equal. rewrite map_map.
  apply map_ext. intros v. apply field_of_cell.
Qed.

(** C4. For a query result with at least one column, [exportToCSV] gives the
    header line of the quoted column names, then one line per data row, each
    field between double quotes, fields separated by commas, lines separated
    by newlines, a cell rendered as its text form and a null cell as the
    empty string; with no column it gives the empty string.  On the columns
    a, b and the rows (1, x), (null, y) the document is the three lines of
    [example_lines]. *)
Theorem exportToCSV_is_csv_document :
  (forall result, exportToCSV result = csv_document result)
  /\ (forall rows, exportToCSV {| columns := []; values := rows |} = EmptyString)
  /\ exportToCSV example_result = join newline example_lines.
Proof.
  split; [| split].
  - intros [cols rows]. unfold exportToCSV, csv_document. cbn [columns values].
    destruct cols as [|c cols]; [done|].
    change (Nat.eqb (length (c :: cols)) 0) with false. cbv iota.
    rewrite fold_push_lines. unfold push. cbn [app].
    f_equal. f_equal. apply map_ext. intros row. apply row_line.
  - done.
  - vm_compute. reflexivity.
Qed.

End CsvFacts.

(** ** The query executor *)

Section ExecuteQueryFacts.
Context {engine : SqlEngine}.

(** C5. When the engine runs a SQL text and reports no result set,
    [executeQuery] returns normally, with no column and no row. *)
Theorem executeQuery_no_result_set (d d' : Db) (sql : string) :
  db_exec d sql = (d', Ok []) ->
  executeQuery sql d = (d', Ok {| columns := []; values := [] |}).
Proof. intros Hexec. unfold executeQuery. by rewrite Hexec. Qed.

(** C6. When the engine reports several result sets for one SQL text,
    [executeQuery] returns the columns and the rows of the first one and
    nothing of the others. *)
Theorem executeQuery_first_result_set (d d' : Db) (sql : string)
    (first second : ExecResult) (others : list ExecResult) :
  db_exec d sql = (d', Ok (first :: second :: others)) ->
  executeQuery sql d
  = (d', Ok {| columns := res_columns first; values := res_values first |}).
Proof. intros Hexec. unfold executeQuery. by rewrite Hexec. Qed.

(** C7. When the engine fails on a SQL text with a diagnostic message,
    [executeQuery] throws an error whose message is the prefix
    [SQL Error: ] followed by the diagnostic, unchanged; the handle is left
    in the state the engine left it in. *)
Theorem executeQuery_engine_failure (d d' : Db) (sql diagnostic : string) :
  db_exec d sql = (d', Throw (ErrorObj diagnostic)) ->
  executeQuery sql d = (d', Throw (ErrorObj ("SQL Error: " +:+ diagnostic))).
Proof. intros Hexec. unfold executeQuery. by rewrite Hexec. Qed.

End ExecuteQueryFacts.

(** ** Schema introspection *)

Section GetSchemaFacts.
Context {engine : SqlEngine}.

(** Handles on the same database answer one SQL text alike, and still hold
    the same database afterwards. *)
Lemma same_database_exec (d1 d2 : Db) (sql : string) :
  same_database d1 d2 ->
  (db_exec d1 sql).2 = (db_exec d2 sql).2
  /\ same_database (db_exec d1 sql).1 (db_exec d2 sql).1.
Proof.
  intros Hsame. split.
  - specialize (Hsame [sql]). simpl in Hsame.
    destruct (db_exec d1 sql), (db_exec d2 sql). simpl. by inversion Hsame.
  - intros script. specialize (Hsame (sql :: script)). simpl in Hsame.
    destruct (db_exec d1 sql), (db_exec d2 sql). simpl. by inversion Hsame.
Qed.

Lemma same_database_refl (d : Db) : same_database d d.
Proof. by intros script. Qed.

(** The loop of [getSchema] reads the handle through [exec] only. *)
Lemma getSchema_loop_same_database (tableRows : list (list value)) :
  forall (acc : list TableSchema) (d1 d2 : Db),
    same_database d1 d2 ->
    (getSchema_loop tableRows acc d1).2 = (getSchema_loop tableRows acc d2).2.
Proof.
  induction tableRows as [|row rest IH]; intros acc d1 d2 Hsame; [done|].
  cbn [getSchema_loop]. unfold bind, exec, lift.
  destruct (same_database_exec d1 d2 (columnsQuery (index row 0)) Hsame) as [Hr1 Hs1].
  destruct (db_exec d1 (columnsQuery (index row 0))) as [a1 r1].
  destruct (db_exec d2 (columnsQuery (index row 0))) as [a2 r2].
  simpl in Hr1, Hs1. subst r2.
  destruct r1 as [columnsResult|e]; [|done].
  destruct (same_database_exec a1 a2 (countQuery (index row 0)) Hs1) as [Hr2 Hs2].
  destruct (db_exec a1 (countQuery (index row 0))) as [b1 q1].
  destruct (db_exec a2 (countQuery (index row 0))) as [b2 q2].
  simpl in Hr2, Hs2. subst q2.
  destruct q1 as [countResult|e]; [|done].
  destruct (rowCount_of countResult) as [n|e]; [|done].
  by apply IH.
Qed.

Lemma getSchema_same_database (d1 d2 : Db) :
  same_database d1 d2 -> (getSchema d1).2 = (getSchema d2).2.
Proof.
  intros Hsame. unfold getSchema, bind, exec, ret.
  destruct (same_database_exec d1 d2 tablesQuery Hsame) as [Hr Hs].
  destruct (db_exec d1 tablesQuery) as [a1 r1].
  destruct (db_exec d2 tablesQuery) as [a2 r2].
  simpl in Hr, Hs. subst r2.
  destruct r1 as [[|r others]|e]; [done| |done].
  pose proof (getSchema_loop_same_database (res_values r) [] a1 a2 Hs) as Hloop.
  destruct (getSchema_loop (res_values r) [] a1) as [c1 t1].
  destruct (getSchema_loop (res_values r) [] a2) as [c2 t2].
  simpl in Hloop. subst t2. by destruct t1.
Qed.



(** The loop of [getSchema] adds to its array the tables that the worded
    description gives for the names of the rows, and stops as it stops. *)
Lemma getSchema_loop_describes (tableRows : list (list value)) :
  forall (acc : list TableSchema) (d : Db),
    getSchema_loop tableRows acc d
    = match describe_tables d (map (fun row => nth 0 row JUndefined) tableRows) with
      | (d', Ok described) => (d', Ok (acc ++ described))
      | (d', Throw e) => (d', Throw e)
      end.
Proof.
  induction tableRows as [|row rest IH]; intros acc d.
  - cbn. by rewrite app_nil_r.
  - cbn [getSchema_loop map describe_tables]. unfold bind, exec, lift.
    change (columnsQuery (index row 0)) with (bare_columns_text (nth 0 row JUndefined)).
    change (countQuery (index row 0)) with (bare_count_text (nth 0 row JUndefined)).
    destruct (db_exec d (bare_columns_text (nth 0 row JUndefined)))
      as [d1 [columnsAnswer|e]]; [|done].
    destruct (db_exec d1 (bare_count_text (nth 0 row JUndefined)))
      as [d2 [countAnswer|e]]; [|done].
    change (rowCount_of countAnswer) with (answered_count countAnswer).
    destruct (answered_count countAnswer) as [count|e]; [|done].
    rewrite IH.
    destruct (describe_tables d2 (map (fun row => nth 0 row JUndefined) rest))
      as [d3 [others|e]]; [|done].
    by rewrite <- app_assoc.
Qed.

(** C3 (as the code has it). [getSchema] is the introspection that writes
    each table name bare: it runs the catalog text and then, for each name
    listed, in order, the texts [PRAGMA table_info(<name>)] and the count
    text ending in [<name>], where [<name>] is the text of the name with no
    quote around it and nothing escaped.  A schema it returns holds, for
    each name, the column descriptors and the count the engine answered to
    these two texts; when the engine throws on one of the texts, [getSchema]
    throws that same error, with the handle as the engine left it, and
    returns no schema. *)
Theorem getSchema_sends_names_verbatim (d : Db) :
  getSchema d = introspection d.
Proof.
  unfold getSchema, introspection, bind, exec, ret.
  change tablesQuery with catalog_text.
  destruct (db_exec d catalog_text) as [d0 [[|catalog others]|e]]; [done| |done].
  rewrite getSchema_loop_describes.
  by destruct (describe_tables d0
                 (map (fun row => nth 0 row JUndefined) (res_values catalog)))
    as [d1 [described|e]].
Qed.

End GetSchemaFacts.

(** ** The upload filter *)

Section ExtnameFacts.

Lemma toLowerCase_chars (s : string) :
  list_ascii_of_string (toLowerCase s) = map lower_char (list_ascii_of_string s).
Proof. induction s as [|c s IH]; simpl; congruence. Qed.

Lemma length_chars (s : string) :
  length (list_ascii_of_string s) = String.length s.
Proof. induction s as [|c s IH]; simpl; congruence. Qed.

(** A substring that runs to the end of the string is what is left after
    dropping its first characters. *)
Lemma substring_to_end_chars (s : string) :
  forall k,
    list_ascii_of_string (substring k (String.length s - k) s)
    = drop k (list_ascii_of_string s).
Proof.
  induction s as [|c s IH]; intros [|k]; simpl; try done.
  f_equal. specialize (IH 0%nat). rewrite Nat.sub_0_r in IH. by rewrite IH.
Qed.

(** One turn of the scan over a character that is not a separator. *)
Lemma extname_step_no_separator (i : Z) (code : ascii) (s : ExtScan) :
  code <> "/"%char ->
  exists s',
    extname_step i code s = (s', false)
    /\ scan_end s' = (if (scan_end s =? -1)%Z then (i + 1)%Z else scan_end s)
    /\ (startDot s' = (if (startDot s =? -1)%Z then i else startDot s)
        \/ startDot s' = startDot s).
Proof.
  intros Hcode. unfold extname_step.
  apply Ascii.eqb_neq in Hcode. rewrite Hcode.
  destruct s as [sd sp se ms pd]; simpl.
  destruct (se =? -1)%Z eqn:Ese; simpl;
    destruct (Ascii.eqb code "."); simpl;
    destruct (sd =? -1)%Z eqn:Esd; simpl;
    try destruct (negb (pd =? 1)%Z); simpl;
    eexists; (split; [reflexivity|]); simpl; rewrite ?Ese, ?Esd; auto.
Qed.

(** The scan of a name without separator: the end is the end of the name,
    and the dot, if one was found, lies inside the name. *)
Lemma extname_scan_no_separator (codes : list ascii) :
  forall (i : Z) (s : ExtScan),
    ~ In "/"%char codes ->
    (Z.of_nat (length codes) <= i + 1)%Z ->
    let s' := extname_scan codes i s in
    (scan_end s <> -1 -> scan_end s' = scan_end s)%Z
    /\ (startDot s <> -1 -> startDot s' = startDot s)%Z
    /\ (scan_end s = -1 -> codes <> [] -> scan_end s' = i + 1)%Z
    /\ (startDot s = -1 ->
        startDot s' = -1 \/ i + 1 - Z.of_nat (length codes) <= startDot s' <= i)%Z.
Proof.
  induction codes as [|code more IH]; intros i s Hsep Hlen; cbn zeta.
  - simpl. repeat split; try done. intros; by left.
  - cbn [extname_scan].
    destruct (extname_step_no_separator i code s) as (s1 & -> & Hend & Hdot).
    { intros ->. apply Hsep. by left. }
    cbn [length] in Hlen.
    destruct (IH (i - 1)%Z s1) as (IHa & IHb & IHc & IHd).
    { intros Hin. apply Hsep. by right. }
    { lia. }
    cbn zeta in IHa, IHb, IHc, IHd.
    assert (Hend1 : (scan_end s1 <> -1)%Z).
    { rewrite Hend. destruct (Z.eqb_spec (scan_end s) (-1)); lia. }
    repeat split.
    + intros Hne. rewrite (IHa Hend1), Hend.
      destruct (Z.eqb_spec (scan_end s) (-1)); [lia|done].
    + intros Hne.
      assert (Hs1 : startDot s1 = startDot s).
      { destruct Hdot as [Hdot|Hdot]; [|done]. rewrite Hdot.
        destruct (Z.eqb_spec (startDot s) (-1)); [lia|done]. }
      rewrite IHb; [done|]. by rewrite Hs1.
    + intros He _. rewrite (IHa Hend1), Hend.
      destruct (Z.eqb_spec (scan_end s) (-1)); [done|lia].
    + intros Hs. cbn [length].
      destruct (Z.eqb_spec (startDot s1) (-1)) as [Hm|Hm].
      * destruct (IHd Hm) as [Hl|Hr]; [by left|right; lia].
      * right. rewrite (IHb Hm).
        destruct Hdot as [Hdot|Hdot].
        -- rewrite Hdot. destruct (Z.eqb_spec (startDot s) (-1)); lia.
        -- lia.
Qed.

(** For a name without separator, a non-empty [extname] is an end of the
    name. *)
Lemma extname_is_suffix (path : string) :
  no_separator path ->
  extname path <> EmptyString ->
  exists k, list_ascii_of_string (extname path) = drop k (list_ascii_of_string path).
Proof.
  intros Hsep Hext. unfold extname in *.
  set (codes := rev (list_ascii_of_string path)) in *.
  set (i := (Z.of_nat (String.length path) - 1)%Z) in *.
  set (s0 := mkExtScan (-1) 0 (-1) true 0) in *.
  assert (Hlen : Z.of_nat (length codes) = (i + 1)%Z).
  { unfold codes, i. rewrite length_rev, length_chars. lia. }
  destruct (extname_scan_no_separator codes i s0) as (_ & _ & Hc & Hd).
  { unfold codes. intros Hin. apply Hsep. by apply in_rev. }
  { lia. }
  cbn zeta in Hc, Hd.
  set (s' := extname_scan codes i s0) in *.
  destruct (Z.eqb_spec (startDot s') (-1)) as [|Hsd]; [done|].
  destruct (Z.eqb_spec (scan_end s') (-1)) as [|Hse]; [done|].
  cbn [orb] in Hext |- *.
  destruct ((preDotState s' =? 0)%Z
            || (preDotState s' =? 1)%Z && (startDot s' =? scan_end s' - 1)%Z
               && (startDot s' =? startPart s' + 1)%Z); [done|].
  assert (Hne : codes <> []).
  { intros Hnil. apply Hse. unfold s'. by rewrite Hnil. }
  specialize (Hc eq_refl Hne). destruct (Hd eq_refl) as [|Hrange]; [done|].
  exists (Z.to_nat (startDot s')). unfold slice.
  replace (Z.to_nat (scan_end s' - startDot s'))
    with (String.length path - Z.to_nat (startDot s'))%nat by lia.
  apply substring_to_end_chars.
Qed.

(** A name without separator that the filter lets through ends, in lower
    case, with an accepted extension. *)
Lemma fileFilter_accepts_suffix (originalname : string) :
  no_separator originalname ->
  includes allowedExts (toLowerCase (extname originalname)) = true ->
  has_allowed_suffix originalname.
Proof.
  intros Hsep Hinc. unfold includes in Hinc.
  apply existsb_exists in Hinc as (ext & Hin & Heq).
  apply String.eqb_eq in Heq. subst ext.
  exists (toLowerCase (extname originalname)). split; [done|].
  destruct (extname_is_suffix originalname Hsep) as [k Hk].
  { intros Hempty. rewrite Hempty in Hin. simpl in Hin.
    destruct Hin as [|[|[|[]]]]; discriminate. }
  rewrite !toLowerCase_chars, Hk.
  rewrite <- (skipn_map lower_char). apply suffix_drop.
Qed.

End ExtnameFacts.

(** ** The blob store and the routes *)

Section RouteFacts.
Context {node : NodeEnv}.

(** C8 (as the code has it). An upload the specification wants refused
    leaves the store as it was.  A request without file, that is without
    file part or with a file part whose name is empty, is answered with
    status 400; a file whose name has no accepted extension, or a file over
    the size limit, is refused by the middleware, which hands its error to
    the framework instead of answering from the route: the filter's message
    when the extension is not accepted, the size error otherwise. *)
Theorem upload_refused (st : MemStorage) (part : option UploadedFile)
    (uuid1 uuid2 : string) (now : Z) :
  refused_upload part ->
  upload_route st part uuid1 uuid2 now
  = (st,
     match part with
     | None => Responded 400 (MessageBody "No file uploaded")
     | Some f =>
         if String.eqb (originalname f) EmptyString
         then Responded 400 (MessageBody "No file uploaded")
         else
           Forwarded (ErrorObj
             (if includes allowedExts (toLowerCase (extname (originalname f)))
              then "File too large" else filter_message))
     end).
Proof.
  intros Hrefused. unfold upload_route, upload_single, fileFilter.
  destruct Hrefused as [|f Hsep Hsuffix|f Hsize]; [done| |].
  - destruct (String.eqb (originalname f) EmptyString); [done|].
    destruct (includes allowedExts (toLowerCase (extname (originalname f)))) eqn:Hinc;
      [|done].
    exfalso. apply Hsuffix. by apply fileFilter_accepts_suffix.
  - destruct (String.eqb (originalname f) EmptyString); [done|].
    destruct (includes allowedExts (toLowerCase (extname (originalname f)))); [|done].
    apply Z.ltb_lt in Hsize. by rewrite Hsize.
Qed.

(** C9. Deleting an id that has no metadata record answers success and
    changes neither the records, nor the cached buffers, nor the disk. *)
Theorem delete_unknown_id (st : MemStorage) (id : string) :
  files st !! id = None ->
  delete_route st id = (st, Responded 200 (SuccessBody true)).
Proof.
  intros Hnone. unfold delete_route, deleteSqliteFile. by rewrite Hnone.
Qed.

(** A completed [saveFileBuffer] leaves the buffer in the cache. *)
Lemma saveFileBuffer_cached (st st' : MemStorage) (f : string) (b : list byte) :
  saveFileBuffer st f b = (st', Ok tt) ->
  fileBuffers st' !! f = Some b.
Proof.
  unfold saveFileBuffer.
  destruct (writeFileSync (disk st) (path_join uploadsDir f) b) as [dk [[]|e]];
    intros Hsave; inversion Hsave; subst; simpl.
  apply lookup_insert_eq.
Qed.

(** A cached buffer is returned as it is, whatever the disk holds. *)
Lemma getFileBuffer_cached (st : MemStorage) (f : string) (b : list byte) (dk : Disk) :
  fileBuffers st !! f = Some b ->
  getFileBuffer (set_disk st dk) f = (set_disk st dk, Ok b).
Proof. intros Hcached. unfold getFileBuffer. simpl. by rewrite Hcached. Qed.

(** C10. After [saveFileBuffer f b] completes, [getFileBuffer f] returns
    [b]; and whenever a buffer for [f] is in the cache, [getFileBuffer f]
    returns it whatever the disk then holds, and leaves the store as it
    is. *)
Theorem getFileBuffer_after_save (f : string) (b : list byte) :
  (forall st st',
     saveFileBuffer st f b = (st', Ok tt) -> getFileBuffer st' f = (st', Ok b))
  /\ (forall st dk,
        fileBuffers st !! f = Some b ->
        getFileBuffer (set_disk st dk) f = (set_disk st dk, Ok b)).
Proof.
  split.
  - intros st st' Hsave. apply saveFileBuffer_cached in Hsave.
    unfold getFileBuffer. by rewrite Hsave.
  - intros st dk. apply getFileBuffer_cached.
Qed.

End RouteFacts.

(** ** Instances and counterexamples *)

Section Examples.
Import StubEngine MapDisk Quoting.


Lemma executeQuery_no_result_set_witness :
  executeQuery (engine := stub) "INSERT INTO t VALUES (7)" image
  = (image ++ [x07], Ok {| columns := []; values := [] |}).
Proof.
  apply (executeQuery_no_result_set (engine := stub)). reflexivity.
Defined.

Lemma executeQuery_first_result_set_witness :
  executeQuery (engine := stub) "SELECT 1; SELECT 2" image
  = (image, Ok {| columns := ["1"]; values := [[JNum 1]] |}).
Proof.
  apply (executeQuery_first_result_set (engine := stub) image image "SELECT 1; SELECT 2"
           {| res_columns := ["1"]; res_values := [[JNum 1]] |}
           {| res_columns := ["2"]; res_values := [[JNum 2]] |} []).
  reflexivity.
Defined.

Lemma executeQuery_engine_failure_witness :
  executeQuery (engine := stub) "SELEKT * FROM t" image
  = (image, Throw (ErrorObj "SQL Error: syntax error")).
Proof.
  apply (executeQuery_engine_failure (engine := stub) image image "SELEKT * FROM t"
           "syntax error").
  reflexivity.
Defined.

(** C3, counterexample. For the table name [order items] the two generated
    texts carry the name bare: neither is the prefix followed by a quoted
    form of the name. *)
Lemma getSchema_queries_not_quoted :
  ~ quoting_discipline columnsQuery "PRAGMA table_info(" ")"
  /\ ~ quoting_discipline countQuery countPrefix EmptyString.
Proof.
  split; intros Hq; specialize (Hq "order items" eq_refl);
    vm_compute in Hq; destruct Hq as [H|[H|[H|[]]]]; discriminate H.
Qed.

(** On the engine whose table is named [order items], introspection
    fails with the error the engine throws on the bare text. *)
Lemma getSchema_sends_names_verbatim_witness :
  getSchema (engine := stub_named "order items") image
  = (image, Throw (ErrorObj "syntax error")).
Proof.
  rewrite (getSchema_sends_names_verbatim (engine := stub_named "order items") image).
  reflexivity.
Defined.

(** C8, counterexample. A file named [notes.txt] does not end with an
    accepted extension, and its upload is not answered with status 400. *)
Lemma upload_txt_not_answered_400 :
  ~ (forall (st : MemStorage) (f : UploadedFile) (uuid1 uuid2 : string) (now : Z),
       ~ has_allowed_suffix (originalname f) ->
       exists body,
         upload_route (node := MapDisk.node) st (Some f) uuid1 uuid2 now
         = (st, Responded 400 body)).
Proof.
  intros Hclaim.
  destruct (Hclaim empty_storage (mkUploadedFile "notes.txt" [x01] 1) "u1" "u2" 0%Z)
    as [body Hbody].
  - intros (ext & Hin & Hsuffix).
    destruct Hin as [<-|[<-|[<-|[]]]];
      revert Hsuffix; apply (bool_decide_eq_false_1 _); vm_compute; reflexivity.
  - vm_compute in Hbody. discriminate Hbody.
Qed.

Lemma upload_refused_witness :
  upload_route (node := MapDisk.node) empty_storage
    (Some (mkUploadedFile "notes.txt" [x01] 1)) "u1" "u2" 0%Z
  = (empty_storage, Forwarded (ErrorObj filter_message)).
Proof.
  apply (upload_refused (node := MapDisk.node) empty_storage
           (Some (mkUploadedFile "notes.txt" [x01] 1)) "u1" "u2" 0%Z).
  apply refused_suffix.
  - unfold no_separator. simpl. intros H.
    repeat (destruct H as [H|H]; [discriminate H|]). exact H.
  - intros (ext & Hin & Hsuffix).
    destruct Hin as [<-|[<-|[<-|[]]]];
      revert Hsuffix; apply (bool_decide_eq_false_1 _); vm_compute; reflexivity.
Defined.

Lemma delete_unknown_id_witness :
  delete_route (node := MapDisk.node) empty_storage "no-such-id"
  = (empty_storage, Responded 200 (SuccessBody true)).
Proof.
  apply (delete_unknown_id (node := MapDisk.node) empty_storage "no-such-id").
  apply lookup_empty.
Defined.

Lemma getFileBuffer_after_save_witness :
  getFileBuffer (node := MapDisk.node)
    (saveFileBuffer empty_storage "f.db" [x01; x02]).1 "f.db"
  = ((saveFileBuffer empty_storage "f.db" [x01; x02]).1, Ok [x01; x02])
  /\ getFileBuffer (node := MapDisk.node)
       (set_disk (saveFileBuffer empty_storage "f.db" [x01; x02]).1 ∅) "f.db"
     = (set_disk (saveFileBuffer empty_storage "f.db" [x01; x02]).1 ∅, Ok [x01; x02]).
Proof.
  destruct (getFileBuffer_after_save (node := MapDisk.node) "f.db" [x01; x02])
    as [Hsave Hcache].
  split.
  - apply (Hsave empty_storage). reflexivity.
  - apply Hcache. apply lookup_insert_eq.
Defined.

End Examples.

(** * Further properties of the server *)

Section StorageFacts.
Context {node : NodeEnv}.

(** An accepted name passes the filter. *)
Lemma fileFilter_includes (originalname : string) :
  fileFilter originalname = Ok true
  <-> includes allowedExts (toLowerCase (extname originalname)) = true.
Proof.
  unfold fileFilter.
  destruct (includes allowedExts (toLowerCase (extname originalname))); split; done.
Qed.

(** A name that passes the filter is not empty. *)
Lemma accepted_name_not_empty (originalname : string) :
  fileFilter originalname = Ok true ->
  String.eqb originalname EmptyString = false.
Proof.
  intros Hfilter. destruct originalname as [|c rest]; [|done].
  vm_compute in Hfilter. discriminate Hfilter.
Qed.

(** X1. An accepted upload within the size limit, once written, is answered
    with the new record, and the buffer route then returns the uploaded
    bytes under the record's id.  The download route returns them too, as
    an attachment named after the original name, when that name makes a
    header value [res.setHeader] accepts; when it does not (a line feed or
    a character above U+00FF in the name), the download route answers 500
    with the message of the header error. *)
Theorem upload_then_fetch (st : MemStorage) (f : UploadedFile)
    (uuid1 uuid2 : string) (now : Z) (dk : Disk) :
  fileFilter (originalname f) = Ok true ->
  (size f <= fileSize_limit)%Z ->
  writeFileSync (disk st) (path_join uploadsDir (uuid1 +:+ "_" +:+ originalname f))
                (buffer f) = (dk, Ok tt) ->
  let st' := (upload_route st (Some f) uuid1 uuid2 now).1 in
  (upload_route st (Some f) uuid1 uuid2 now).2
    = Responded 200
        (FileBody true
           {| id := uuid2;
              filename := uuid1 +:+ "_" +:+ originalname f;
              originalName := originalname f;
              fileSize := size f;
              uploadedAt := now |})
  /\ buffer_route st' uuid2
     = (st', SendBuffer [("Content-Type", "application/octet-stream")] (buffer f))
  /\ download_route st' uuid2
     = (st',
        if valid_header_value (attachment (originalname f))
        then SendBuffer [ ("Content-Type", "application/x-sqlite3");
                          ("Content-Disposition", attachment (originalname f)) ]
                        (buffer f)
        else SendJson 500 invalid_header_message).
Proof.
  intros Hfilter Hsize Hwrite. cbn zeta.
  unfold upload_route, upload_single.
  rewrite (accepted_name_not_empty _ Hfilter), Hfilter.
  apply Z.ltb_ge in Hsize. rewrite Hsize.
  unfold upload_handler, saveFileBuffer. rewrite Hwrite.
  unfold createSqliteFile, parse_insert. cbn [fst snd].
  split; [done|].
  unfold buffer_route, download_route, getSqliteFile, getFileBuffer.
  cbn [files fileBuffers disk ins_filename ins_originalName ins_fileSize].
  rewrite (lookup_insert_eq (files st) uuid2).
  cbn [filename originalName].
  rewrite (lookup_insert_eq (fileBuffers st)).
  split; [done|].
  by destruct (valid_header_value (attachment (originalname f))).
Qed.

(** X2. When the write of an accepted upload fails, the route answers 500 with
    the error's message; no record is created and the cached buffers are as
    before. *)
Theorem upload_write_failure (st : MemStorage) (f : UploadedFile)
    (uuid1 uuid2 : string) (now : Z) (dk : Disk) (message : string) :
  fileFilter (originalname f) = Ok true ->
  (size f <= fileSize_limit)%Z ->
  writeFileSync (disk st) (path_join uploadsDir (uuid1 +:+ "_" +:+ originalname f))
                (buffer f) = (dk, Throw (ErrorObj message)) ->
  upload_route st (Some f) uuid1 uuid2 now
  = (mkMemStorage (files st) (fileBuffers st) dk, Responded 500 (MessageBody message)).
Proof.
  intros Hfilter Hsize Hwrite.
  unfold upload_route, upload_single.
  rewrite (accepted_name_not_empty _ Hfilter), Hfilter.
  apply Z.ltb_ge in Hsize. rewrite Hsize.
  unfold upload_handler, saveFileBuffer. by rewrite Hwrite.
Qed.

(** X3. A record whose blob is neither cached nor on disk is answered 500, with
    the message [File not found], by both serving routes, and the store is
    left as it was. *)
Theorem serve_missing (st : MemStorage) (id : string) (file : SqliteFile) :
  files st !! id = Some file ->
  fileBuffers st !! filename file = None ->
  existsSync (disk st) (path_join uploadsDir (filename file)) = false ->
  buffer_route st id = (st, SendJson 500 "File not found")
  /\ download_route st id = (st, SendJson 500 "File not found").
Proof.
  intros Hfile Hcache Hdisk.
  unfold buffer_route, download_route, getSqliteFile, getFileBuffer.
  by rewrite Hfile, Hcache, Hdisk.
Qed.

(** X4. After a delete that answered success the id has no record: both serving
    routes answer 404, a second delete is again a success and changes
    nothing, the other records are kept. *)
Theorem delete_then_serve (st st' : MemStorage) (id : string) :
  delete_route st id = (st', Responded 200 (SuccessBody true)) ->
  buffer_route st' id = (st', SendJson 404 "File not found")
  /\ download_route st' id = (st', SendJson 404 "File not found")
  /\ delete_route st' id = (st', Responded 200 (SuccessBody true))
  /\ forall id', id' <> id -> getSqliteFile st' id' = getSqliteFile st id'.
Proof.
  intros Hdelete.
  assert (Hgone : files st' !! id = None
                  /\ forall id', id' <> id -> files st' !! id' = files st !! id').
  { unfold delete_route, deleteSqliteFile in Hdelete.
    destruct (files st !! id) as [file|] eqn:Hfile.
    - destruct (if existsSync (disk st) (path_join uploadsDir (filename file))
                then unlinkSync (disk st) (path_join uploadsDir (filename file))
                else (disk st, Ok tt)) as [dk [[]|e]]; [|done].
      inversion Hdelete; subst; simpl. split.
      + apply lookup_delete_eq.
      + intros id' Hne. by apply lookup_delete_ne.
    - inversion Hdelete; subst. by split. }
  destruct Hgone as [Hnone Hothers].
  unfold buffer_route, download_route, getSqliteFile. rewrite Hnone.
  repeat split; try done.
  unfold delete_route, deleteSqliteFile. by rewrite Hnone.
Qed.

(** X5. A delete also drops the cached buffer of the record, and no other cached
    buffer. *)
Theorem delete_drops_cached_buffer (st st' : MemStorage) (id : string) (file : SqliteFile) :
  files st !! id = Some file ->
  delete_route st id = (st', Responded 200 (SuccessBody true)) ->
  fileBuffers st' !! filename file = None
  /\ forall g, g <> filename file -> fileBuffers st' !! g = fileBuffers st !! g.
Proof.
  intros Hfile Hdelete.
  unfold delete_route, deleteSqliteFile in Hdelete. rewrite Hfile in Hdelete.
  destruct (if existsSync (disk st) (path_join uploadsDir (filename file))
            then unlinkSync (disk st) (path_join uploadsDir (filename file))
            else (disk st, Ok tt)) as [dk [[]|e]]; [|done].
  inversion Hdelete; subst; simpl. split.
  - apply lookup_delete_eq.
  - intros g Hne. by apply lookup_delete_ne.
Qed.

(** X6. When removing the file from the disk fails, the delete route answers 500
    with the error's message, and the record and the cached buffers stay. *)
Theorem delete_unlink_failure (st : MemStorage) (id : string) (file : SqliteFile)
    (dk : Disk) (message : string) :
  files st !! id = Some file ->
  existsSync (disk st) (path_join uploadsDir (filename file)) = true ->
  unlinkSync (disk st) (path_join uploadsDir (filename file))
    = (dk, Throw (ErrorObj message)) ->
  delete_route st id
  = (mkMemStorage (files st) (fileBuffers st) dk, Responded 500 (MessageBody message)).
Proof.
  intros Hfile Hexists Hunlink.
  unfold delete_route, deleteSqliteFile. by rewrite Hfile, Hexists, Hunlink.
Qed.

(** X7. The first [getFileBuffer] of a file that is on disk and not cached reads
    it and caches it: from then on the same bytes are returned whatever
    becomes of the disk. *)
Theorem getFileBuffer_reads_disk_once (st : MemStorage) (f : string) (b : list byte) :
  fileBuffers st !! f = None ->
  existsSync (disk st) (path_join uploadsDir f) = true ->
  readFileSync (disk st) (path_join uploadsDir f) = Ok b ->
  (getFileBuffer st f).2 = Ok b
  /\ forall dk,
       getFileBuffer (set_disk (getFileBuffer st f).1 dk) f
       = (set_disk (getFileBuffer st f).1 dk, Ok b).
Proof.
  intros Hcache Hexists Hread.
  assert (Hget : getFileBuffer st f
                 = (mkMemStorage (files st) (<[f := b]> (fileBuffers st)) (disk st), Ok b)).
  { unfold getFileBuffer. by rewrite Hcache, Hexists, Hread. }
  rewrite Hget. cbn [fst snd]. split; [done|]. intros dk.
  apply getFileBuffer_cached. cbn [fileBuffers]. apply lookup_insert_eq.
Qed.

(** X8. [saveFileBuffer] never touches the records nor the cached buffer of
    another file name, and a failed write leaves the whole cache as it was,
    so that an earlier buffer of the same name is still served. *)
Theorem saveFileBuffer_frame (st : MemStorage) (f : string) (b : list byte) :
  files (saveFileBuffer st f b).1 = files st
  /\ (forall g, g <> f ->
        fileBuffers (saveFileBuffer st f b).1 !! g = fileBuffers st !! g)
  /\ (forall e, (saveFileBuffer st f b).2 = Throw e ->
        fileBuffers (saveFileBuffer st f b).1 = fileBuffers st).
Proof.
  unfold saveFileBuffer.
  destruct (writeFileSync (disk st) (path_join uploadsDir f) b) as [dk [[]|e]]; cbn.
  - repeat split; [|done]. intros g Hne. by apply lookup_insert_ne.
  - by repeat split.
Qed.

End StorageFacts.

(** ** The upload filter, characterised *)

Section FilterFacts.

Lemma chars_append (a b : string) :
  list_ascii_of_string (a +:+ b) = list_ascii_of_string a ++ list_ascii_of_string b.
Proof. induction a as [|c a IH]; [done|]. cbn. by rewrite <- IH. Qed.

Lemma chars_inj (a b : string) :
  list_ascii_of_string a = list_ascii_of_string b -> a = b.
Proof.
  intros Heq.
  rewrite <- (string_of_list_ascii_of_string a), <- (string_of_list_ascii_of_string b).
  by rewrite Heq.
Qed.

(** Lower-casing never makes nor removes a dot or a separator. *)
Lemma plain_char_lower (c : ascii) : plain_char (lower_char c) = plain_char c.
Proof.
  destruct c as [[] [] [] [] [] [] [] []]; vm_compute; reflexivity.
Qed.

Lemma lower_char_dot (c : ascii) : lower_char c = "."%char -> c = "."%char.
Proof.
  destruct c as [[] [] [] [] [] [] [] []]; vm_compute; intros H;
    first [reflexivity | discriminate H].
Qed.

Lemma plain_lower (s : string) :
  forallb plain_char (list_ascii_of_string (toLowerCase s))
  = forallb plain_char (list_ascii_of_string s).
Proof.
  induction s as [|c s IH]; [done|]. cbn. by rewrite plain_char_lower, IH.
Qed.

(** An extension that lower-cases to an accepted one is a dot followed by at
    least one character, none of them a dot or a separator. *)
Lemma accepted_extension_shape (ext : string) :
  In (toLowerCase ext) allowedExts ->
  exists rest, ext = String "."%char rest
               /\ rest <> EmptyString
               /\ forallb plain_char (list_ascii_of_string rest) = true.
Proof.
  intros Hin. destruct ext as [|c rest].
  { destruct Hin as [H|[H|[H|[]]]]; discriminate H. }
  exists rest.
  assert (Hshape : lower_char c = "."%char
                   /\ toLowerCase rest <> EmptyString
                   /\ forallb plain_char (list_ascii_of_string (toLowerCase rest)) = true).
  { cbn [toLowerCase] in Hin.
    destruct Hin as [H|[H|[H|[]]]]; inversion H as [[Hc Hrest]];
      repeat split; try done. }
  destruct Hshape as (Hc & Hne & Hplain).
  apply lower_char_dot in Hc. subst c. repeat split.
  - intros ->. by apply Hne.
  - by rewrite <- plain_lower.
Qed.

(** The scan never resets [preDotState] to 0. *)
Lemma extname_step_keeps_preDot (i : Z) (code : ascii) (s : ExtScan) :
  preDotState s <> 0%Z -> preDotState (extname_step i code s).1 <> 0%Z.
Proof.
  intros Hpre. unfold extname_step.
  destruct s as [sd sp se ms pd]; cbn in *.
  destruct (Ascii.eqb code "/"); [by destruct ms|].
  destruct (se =? -1)%Z; cbn;
    destruct (Ascii.eqb code "."); cbn;
    destruct (sd =? -1)%Z; cbn;
    try destruct (negb (pd =? 1)%Z); cbn; done.
Qed.

Lemma extname_scan_keeps_preDot (codes : list ascii) :
  forall (i : Z) (s : ExtScan),
    preDotState s <> 0%Z -> preDotState (extname_scan codes i s) <> 0%Z.
Proof.
  induction codes as [|code more IH]; intros i s Hpre; [done|].
  cbn [extname_scan].
  pose proof (extname_step_keeps_preDot i code s Hpre) as Hstep.
  destruct (extname_step i code s) as [s1 [|]]; [done|]. by apply IH.
Qed.

(** A character that is not a separator, met after the dot was found, sets
    [preDotState]; met before, it leaves it. *)
Lemma extname_step_preDot (i : Z) (code : ascii) (s : ExtScan) :
  code <> "/"%char ->
  (startDot s <> -1 -> preDotState (extname_step i code s).1 <> 0)%Z
  /\ (startDot s = -1 ->
      preDotState (extname_step i code s).1 = preDotState s
      /\ startPart (extname_step i code s).1 = startPart s)%Z
  /\ (startDot s = -1 -> code <> "."%char ->
      startDot (extname_step i code s).1 = -1)%Z
  /\ (startDot s = -1 -> code = "."%char ->
      startDot (extname_step i code s).1 = i)%Z.
Proof.
  intros Hcode. unfold extname_step.
  apply Ascii.eqb_neq in Hcode. rewrite Hcode.
  destruct s as [sd sp se ms pd]; cbn.
  destruct (se =? -1)%Z; cbn;
    destruct (Ascii.eqb_spec code "."); cbn;
    destruct (Z.eqb_spec sd (-1)); cbn;
    try destruct (Z.eqb_spec pd 1); cbn;
    repeat split; intros; try done; try lia.
Qed.

(** When the scan of a name without separator ends with [preDotState] set,
    a character was met after the dot: the dot is not the first scanned
    index. *)
Lemma extname_scan_dot_after_stem (codes : list ascii) :
  forall (i : Z) (s : ExtScan),
    ~ In "/"%char codes ->
    (Z.of_nat (length codes) <= i + 1)%Z ->
    (startDot s = -1 \/ startDot s > i)%Z ->
    preDotState s = 0%Z ->
    preDotState (extname_scan codes i s) <> 0%Z ->
    (startDot (extname_scan codes i s) > i + 1 - Z.of_nat (length codes))%Z.
Proof.
  induction codes as [|code more IH]; intros i s Hsep Hlen Hdot Hpre Hfinal; [done|].
  cbn [extname_scan] in *. cbn [length] in *.
  assert (Hcode : code <> "/"%char) by (intros ->; apply Hsep; by left).
  assert (Hmore : ~ In "/"%char more) by (intros Hin; apply Hsep; by right).
  destruct (extname_step_no_separator i code s Hcode) as (s1 & Hs1 & Hend & Hsd).
  destruct (extname_step_preDot i code s Hcode) as (Hp1 & Hp2 & Hp3 & Hp4).
  rewrite Hs1 in *. cbn [fst] in *.
  destruct (extname_scan_no_separator more (i - 1)%Z s1 Hmore ltac:(lia))
    as (_ & Hkeep & _ & _).
  cbn zeta in Hkeep.
  destruct (Z.eq_dec (startDot s) (-1)%Z) as [Hm|Hm].
  - destruct (Hp2 Hm) as [Hpd _].
    assert (Hs1dot : (startDot s1 = -1 \/ startDot s1 > i - 1)%Z).
    { destruct (Ascii.eqb_spec code ".") as [Hc|Hc].
      - right. rewrite (Hp4 Hm Hc). lia.
      - left. by apply Hp3. }
    specialize (IH (i - 1)%Z s1 Hmore ltac:(lia) Hs1dot ltac:(congruence) Hfinal).
    lia.
  - assert (Hs1eq : startDot s1 = startDot s).
    { destruct Hsd as [Hsd|Hsd]; [|done]. rewrite Hsd.
      destruct (Z.eqb_spec (startDot s) (-1)); [lia|done]. }
    rewrite Hkeep; [lia|]. by rewrite Hs1eq.
Qed.

(** The scan of two runs of characters, the first without separator. *)
Lemma extname_scan_app (l1 l2 : list ascii) :
  forall (i : Z) (s : ExtScan),
    ~ In "/"%char l1 ->
    extname_scan (l1 ++ l2) i s
    = extname_scan l2 (i - Z.of_nat (length l1)) (extname_scan l1 i s).
Proof.
  induction l1 as [|code more IH]; intros i s Hsep.
  - cbn. f_equal. lia.
  - cbn [app extname_scan length].
    destruct (extname_step_no_separator i code s) as (s1 & -> & _).
    { intros ->. apply Hsep. by left. }
    rewrite IH; [|intros Hin; apply Hsep; by right].
    f_equal. lia.
Qed.

(** The scan of plain characters met before any dot leaves the dot unset
    and [preDotState] as it was. *)
Lemma extname_scan_plain (codes : list ascii) :
  forall (i : Z) (s : ExtScan),
    forallb plain_char codes = true ->
    startDot s = (-1)%Z ->
    startDot (extname_scan codes i s) = (-1)%Z
    /\ preDotState (extname_scan codes i s) = preDotState s.
Proof.
  induction codes as [|code more IH]; intros i s Hplain Hdot; [done|].
  cbn [forallb] in Hplain. apply andb_true_iff in Hplain as [Hc Hmore].
  unfold plain_char in Hc. apply andb_true_iff in Hc as [Hnd Hns].
  apply negb_true_iff, Ascii.eqb_neq in Hnd, Hns.
  cbn [extname_scan].
  destruct (extname_step_no_separator i code s Hns) as (s1 & Hs1 & _).
  destruct (extname_step_preDot i code s Hns) as (_ & Hp2 & Hp3 & _).
  rewrite Hs1 in *. cbn [fst] in *.
  destruct (IH (i - 1)%Z s1 Hmore (Hp3 Hdot Hnd)) as [Hd Hp].
  split; [done|]. rewrite Hp. by destruct (Hp2 Hdot).
Qed.

Lemma plain_no_separator (codes : list ascii) :
  forallb plain_char codes = true -> ~ In "/"%char codes.
Proof.
  intros Hplain Hin. rewrite forallb_forall in Hplain.
  specialize (Hplain _ Hin). done.
Qed.

End FilterFacts.

Section FilterCharacterised.

Lemma substring_from_start_chars (s : string) :
  forall k, list_ascii_of_string (substring 0 k s) = take k (list_ascii_of_string s).
Proof.
  induction s as [|c s IH]; intros [|k]; cbn; try done. by rewrite IH.
Qed.

(** Once the dot is found, the first character met sets [preDotState] for
    good. *)
Lemma extname_scan_sets_preDot (codes : list ascii) (i : Z) (s : ExtScan) :
  codes <> [] ->
  ~ In "/"%char codes ->
  startDot s <> (-1)%Z ->
  preDotState (extname_scan codes i s) <> 0%Z.
Proof.
  intros Hne Hsep Hdot. destruct codes as [|code more]; [done|].
  cbn [extname_scan].
  assert (Hcode : code <> "/"%char) by (intros ->; apply Hsep; by left).
  destruct (extname_step_no_separator i code s Hcode) as (s1 & Hs1 & _).
  destruct (extname_step_preDot i code s Hcode) as (Hp1 & _).
  rewrite Hs1 in *. cbn [fst] in *.
  apply extname_scan_keeps_preDot. by apply Hp1.
Qed.

(** The state in which the scan of [stem.rest] ends. *)
Lemma extname_scan_stem_ext (stem rest : list ascii) :
  stem <> [] ->
  ~ In "/"%char stem ->
  rest <> [] ->
  forallb plain_char rest = true ->
  let L := Z.of_nat (length stem + 1 + length rest) in
  let s' := extname_scan (rev (stem ++ "."%char :: rest)) (L - 1)
              (mkExtScan (-1) 0 (-1) true 0) in
  startDot s' = Z.of_nat (length stem) /\ scan_end s' = L /\ preDotState s' <> 0%Z.
Proof.
  intros Hstem Hsep Hrest Hplain L s'.
  set (s0 := mkExtScan (-1) 0 (-1) true 0) in *.
  assert (Hrev : rev (stem ++ "."%char :: rest) = rev rest ++ ("."%char :: rev stem)).
  { rewrite rev_app_distr. cbn [rev]. by rewrite <- app_assoc. }
  assert (Hplain' : forallb plain_char (rev rest) = true).
  { rewrite forallb_forall in *. intros c Hc. apply Hplain. by apply in_rev. }
  assert (Hsep' : ~ In "/"%char (rev stem)).
  { intros Hin. apply Hsep. by apply in_rev. }
  assert (Hrest' : rev rest <> []).
  { intros Hnil. apply Hrest. apply (f_equal (@rev ascii)) in Hnil.
    by rewrite rev_involutive in Hnil. }
  assert (Hstem' : rev stem <> []).
  { intros Hnil. apply Hstem. apply (f_equal (@rev ascii)) in Hnil.
    by rewrite rev_involutive in Hnil. }
  subst s'. rewrite Hrev.
  rewrite extname_scan_app by by apply plain_no_separator.
  set (sa := extname_scan (rev rest) (L - 1) s0).
  destruct (extname_scan_plain (rev rest) (L - 1) s0 Hplain' eq_refl) as [Hsa_dot Hsa_pre].
  destruct (extname_scan_no_separator (rev rest) (L - 1) s0) as (_ & _ & Hsa_end & _).
  { by apply plain_no_separator. }
  { rewrite length_rev. unfold L. lia. }
  cbn zeta in Hsa_end. specialize (Hsa_end eq_refl Hrest').
  fold sa in Hsa_dot, Hsa_pre, Hsa_end.
  rewrite length_rev. cbn [extname_scan].
  set (i1 := (L - 1 - Z.of_nat (length rest))%Z).
  assert (Hdotcode : "."%char <> "/"%char) by done.
  destruct (extname_step_no_separator i1 "." sa Hdotcode) as (sb & Hsb & Hsb_end & _).
  destruct (extname_step_preDot i1 "." sa Hdotcode) as (_ & _ & _ & Hsb_dot).
  rewrite Hsb in *. cbn [fst] in *.
  specialize (Hsb_dot Hsa_dot eq_refl).
  assert (Hsb_end' : scan_end sb = L).
  { rewrite Hsb_end, Hsa_end. destruct (Z.eqb_spec (L - 1 + 1) (-1)); lia. }
  destruct (extname_scan_no_separator (rev stem) (i1 - 1)%Z sb Hsep')
    as (Hend & Hdot & _ & _).
  { rewrite length_rev. unfold i1, L. lia. }
  cbn zeta in Hend, Hdot.
  repeat split.
  - rewrite Hdot; [|unfold i1, L in *; lia]. rewrite Hsb_dot. unfold i1, L. lia.
  - rewrite Hend; [done|]. unfold L in *. lia.
  - apply extname_scan_sets_preDot; [done|done|]. rewrite Hsb_dot. unfold i1, L. lia.
Qed.

(** The extension of [stem.rest], for a stem without separator and a
    non-empty, plain [rest], is [.rest]. *)
Lemma extname_stem_ext (stem rest : string) :
  stem <> EmptyString ->
  no_separator stem ->
  rest <> EmptyString ->
  forallb plain_char (list_ascii_of_string rest) = true ->
  extname (stem +:+ String "."%char rest) = String "."%char rest.
Proof.
  intros Hstem Hsep Hrest Hplain.
  assert (Hstemc : list_ascii_of_string stem <> []) by by destruct stem.
  assert (Hrestc : list_ascii_of_string rest <> []) by by destruct rest.
  destruct (extname_scan_stem_ext _ _ Hstemc Hsep Hrestc Hplain) as (Hdot & Hend & Hpre).
  cbn zeta in Hdot, Hend, Hpre.
  unfold extname.
  assert (Hlen : String.length (stem +:+ String "."%char rest)
                 = (length (list_ascii_of_string stem) + 1
                    + length (list_ascii_of_string rest))%nat).
  { rewrite <- length_chars, chars_append. cbn. rewrite length_app. cbn. lia. }
  rewrite chars_append, Hlen. cbn [list_ascii_of_string].
  set (s' := extname_scan _ _ _) in *.
  rewrite Hdot, Hend.
  destruct (Z.eqb_spec (Z.of_nat (length (list_ascii_of_string stem))) (-1)); [lia|].
  destruct (Z.eqb_spec (Z.of_nat (length (list_ascii_of_string stem) + 1
                                  + length (list_ascii_of_string rest))) (-1)); [lia|].
  destruct (Z.eqb_spec (preDotState s') 0); [done|].
  destruct (Z.eqb_spec (Z.of_nat (length (list_ascii_of_string stem)))
              (Z.of_nat (length (list_ascii_of_string stem) + 1
                         + length (list_ascii_of_string rest)) - 1)) as [Heq|_].
  { destruct (list_ascii_of_string rest); [done|]. cbn [length] in Heq. lia. }
  rewrite andb_false_r. cbn [orb andb].
  apply chars_inj. unfold slice.
  replace (Z.to_nat (Z.of_nat (length (list_ascii_of_string stem) + 1
                               + length (list_ascii_of_string rest))
                     - Z.of_nat (length (list_ascii_of_string stem))))
    with (String.length (stem +:+ String "."%char rest)
          - Z.to_nat (Z.of_nat (length (list_ascii_of_string stem))))%nat by lia.
  rewrite substring_to_end_chars, chars_append, Nat2Z.id.
  by rewrite drop_app_length.
Qed.

(** A non-empty extension of a name without separator leaves a non-empty
    stem in front of it. *)
Lemma extname_splits (path : string) :
  no_separator path ->
  extname path <> EmptyString ->
  exists stem, stem <> EmptyString /\ path = stem +:+ extname path.
Proof.
  intros Hsep Hext. unfold extname in *.
  set (codes := rev (list_ascii_of_string path)) in *.
  set (i := (Z.of_nat (String.length path) - 1)%Z) in *.
  set (s0 := mkExtScan (-1) 0 (-1) true 0) in *.
  assert (Hlen : Z.of_nat (length codes) = (i + 1)%Z).
  { unfold codes, i. rewrite length_rev, length_chars. lia. }
  assert (Hsep' : ~ In "/"%char codes).
  { unfold codes. intros Hin. apply Hsep. by apply in_rev. }
  destruct (extname_scan_no_separator codes i s0 Hsep' ltac:(lia)) as (_ & _ & Hc & Hd).
  pose proof (extname_scan_dot_after_stem codes i s0 Hsep' ltac:(lia)
                (or_introl eq_refl) eq_refl) as Hstem.
  cbn zeta in Hc, Hd.
  set (s' := extname_scan codes i s0) in *.
  destruct (Z.eqb_spec (startDot s') (-1)) as [|Hsd]; [done|].
  destruct (Z.eqb_spec (scan_end s') (-1)) as [|Hse]; [done|].
  destruct (Z.eqb_spec (preDotState s') 0) as [|Hpd]; [done|].
  cbn [orb] in Hext |- *.
  destruct ((preDotState s' =? 1)%Z && (startDot s' =? scan_end s' - 1)%Z
            && (startDot s' =? startPart s' + 1)%Z); [done|].
  assert (Hne : codes <> []).
  { intros Hnil. apply Hse. unfold s'. by rewrite Hnil. }
  specialize (Hc eq_refl Hne). destruct (Hd eq_refl) as [|Hrange]; [done|].
  specialize (Hstem Hpd).
  exists (substring 0 (Z.to_nat (startDot s')) path). split.
  - intros Hempty. apply (f_equal String.length) in Hempty.
    rewrite <- length_chars, substring_from_start_chars, length_take, length_chars in Hempty.
    cbn in Hempty. lia.
  - apply chars_inj. rewrite chars_append, substring_from_start_chars.
    unfold slice.
    replace (Z.to_nat (scan_end s' - startDot s'))
      with (String.length path - Z.to_nat (startDot s'))%nat by lia.
    rewrite substring_to_end_chars. by rewrite take_drop.
Qed.

Lemma no_separator_append (a b : string) :
  no_separator (a +:+ b) -> no_separator a.
Proof.
  unfold no_separator. rewrite chars_append. intros Hsep Hin.
  apply Hsep, in_or_app. by left.
Qed.

(** X9. The filter, characterised.  A file name without path separator passes
    the upload filter exactly when it is a non-empty stem followed by an
    extension that lower-cases to [.db], [.sqlite] or [.sqlite3]. *)
Theorem fileFilter_accepts_iff (originalname : string) :
  no_separator originalname ->
  fileFilter originalname = Ok true
  <-> exists stem ext,
        originalname = stem +:+ ext
        /\ stem <> EmptyString
        /\ In (toLowerCase ext) allowedExts.
Proof.
  intros Hsep. rewrite fileFilter_includes. unfold includes. split.
  - intros Hinc. apply existsb_exists in Hinc as (ext & Hin & Heq).
    apply String.eqb_eq in Heq. subst ext.
    destruct (extname_splits originalname Hsep) as (stem & Hstem & Hname).
    { intros Hempty. rewrite Hempty in Hin.
      destruct Hin as [H|[H|[H|[]]]]; discriminate H. }
    by exists stem, (extname originalname).
  - intros (stem & ext & -> & Hstem & Hin).
    destruct (accepted_extension_shape ext Hin) as (rest & -> & Hrest & Hplain).
    rewrite extname_stem_ext; try done; [|by eapply no_separator_append].
    apply existsb_exists. exists (toLowerCase (String "."%char rest)).
    split; [done|]. apply String.eqb_refl.
Qed.

End FilterCharacterised.

(** * Further properties of the client *)

(** ** The CSV export *)

Section CsvCellFacts.
Import Csv CsvCells.

Lemma exportToCSV_as_document (result : QueryResult) :
  exportToCSV result = csv_document result.
Proof.
  destruct result as [cols rows]. unfold exportToCSV, csv_document. cbn [columns values].
  destruct cols as [|c cols]; [done|].
  change (Nat.eqb (length (c :: cols)) 0) with false. cbv iota.
  rewrite fold_push_lines. unfold push. cbn [app].
  f_equal. f_equal. apply map_ext. intros row. apply row_line.
Qed.

Lemma append_assoc (a b c : string) : (a +:+ b) +:+ c = a +:+ (b +:+ c).
Proof.
  induction a as [|x a IH]; [done|].
  change (String x ((a +:+ b) +:+ c) = String x (a +:+ (b +:+ c))). by rewrite IH.
Qed.

Lemma join_cons (sep x y : string) (l : list string) :
  join sep (x :: y :: l) = x +:+ sep +:+ join sep (y :: l).
Proof. done. Qed.

(** X11. In the export a null cell and an empty text cell look the same. *)
Theorem exportToCSV_null_as_empty (result : QueryResult) :
  exportToCSV (blank_nulls result) = exportToCSV result.
Proof.
  rewrite !exportToCSV_as_document. unfold csv_document, blank_nulls. cbn [columns values].
  destruct (columns result); [done|]. f_equal. f_equal.
  rewrite map_map. apply map_ext. intros row. f_equal.
  rewrite map_map. apply map_ext. by intros [].
Qed.

Lemma csv_line_glued (before after : list string) (s t : string) :
  csv_line (before ++ glued s t :: after) = csv_line (before ++ s :: t :: after).
Proof.
  unfold csv_line. induction before as [|x before IH].
  - cbn [app map].
    assert (Hq : quoted (glued s t) = quoted s +:+ "," +:+ quoted t).
    { unfold quoted, glued. by rewrite !append_assoc. }
    destruct after as [|y after]; cbn [map]; rewrite ?join_cons, Hq; cbn [join];
      by rewrite ?append_assoc.
  - cbn [app map] in *.
    destruct before as [|y before]; cbn [app map] in *; rewrite !join_cons;
      by rewrite IH.
Qed.

(** X12. The export escapes nothing: a text cell holding a double quote, a comma
    and a double quote between two texts is written exactly as two cells
    holding these texts. *)
Theorem exportToCSV_does_not_escape (cols : list string)
    (rows1 rows2 : list (list value)) (before after : list value) (s t : string) :
  exportToCSV {| columns := cols;
                 values := rows1 ++ (before ++ JStr (glued s t) :: after) :: rows2 |}
  = exportToCSV {| columns := cols;
                   values := rows1 ++ (before ++ JStr s :: JStr t :: after) :: rows2 |}.
Proof.
  rewrite !exportToCSV_as_document. unfold csv_document. cbn [columns values].
  destruct cols; [done|]. f_equal. f_equal.
  rewrite !map_app. f_equal. cbn [map]. f_equal.
  rewrite !map_app. cbn [map cell_text to_string]. apply csv_line_glued.
Qed.

Lemma count_char_append (c : ascii) (a b : string) :
  count_char c (a +:+ b) = count_char c a + count_char c b.
Proof.
  induction a as [|x a IH]; [done|].
  change (count_char c (String x (a +:+ b))
          = count_char c (String x a) + count_char c b).
  cbn [count_char]. rewrite IH. lia.
Qed.

Lemma count_newline_line (fields : list string) :
  (forall x, In x fields -> count_char newline_char x = 0) ->
  count_char newline_char (csv_line fields) = 0.
Proof.
  unfold csv_line. induction fields as [|x fields IH]; intros Hfields; [done|].
  assert (Hx : count_char newline_char (quoted x) = 0).
  { unfold quoted. rewrite !count_char_append. rewrite (Hfields x); [done|by left]. }
  destruct fields as [|y fields]; [done|].
  cbn [map] in *. rewrite join_cons, !count_char_append, Hx.
  rewrite IH; [done|]. intros z Hz. apply Hfields. by right.
Qed.

Lemma count_newline_join (line : string) (lines : list string) :
  (forall x, In x (line :: lines) -> count_char newline_char x = 0) ->
  count_char newline_char (join newline (line :: lines)) = length lines.
Proof.
  revert line. induction lines as [|y lines IH]; intros line Hlines.
  - cbn [join length]. apply Hlines. by left.
  - rewrite join_cons, !count_char_append.
    rewrite (Hlines line) by by left.
    rewrite IH; [done|]. intros z Hz. apply Hlines. by right.
Qed.

(** X13. With at least one column and no line feed inside a column name or a
    cell, the export has exactly one line feed per data row: the header
    line and one line for each row. *)
Theorem exportToCSV_line_count (result : QueryResult) :
  columns result <> [] ->
  single_line result ->
  count_char newline_char (exportToCSV result) = length (values result).
Proof.
  intros Hcols [Hnames Hcells].
  rewrite exportToCSV_as_document. unfold csv_document.
  destruct (columns result) as [|c cols] eqn:Ecols; [done|].
  rewrite count_newline_join; [by rewrite length_map|].
  intros x [<-|Hx].
  - by apply count_newline_line.
  - apply in_map_iff in Hx as (row & <- & Hrow).
    apply count_newline_line. intros y Hy.
    apply in_map_iff in Hy as (v & <- & Hv).
    specialize (Hcells row v Hrow Hv). by destruct v.
Qed.

End CsvCellFacts.

(** ** The schema, table by table *)

Section SchemaOrderFacts.
Context {engine : SqlEngine}.

Lemma getSchema_loop_names (tableRows : list (list value)) :
  forall (acc : list TableSchema) (d d' : Db) (out : list TableSchema),
    getSchema_loop tableRows acc d = (d', Ok out) ->
    map name out = map name acc ++ map (fun row => index row 0) tableRows.
Proof.
  induction tableRows as [|row rest IH]; intros acc d d' out Hloop.
  - inversion Hloop; subst. by rewrite app_nil_r.
  - cbn [getSchema_loop] in Hloop. unfold bind, exec, lift in Hloop.
    destruct (db_exec d (columnsQuery (index row 0))) as [d1 [columnsResult|e]]; [|done].
    destruct (db_exec d1 (countQuery (index row 0))) as [d2 [countResult|e]]; [|done].
    destruct (rowCount_of countResult) as [n|e]; [|done].
    apply IH in Hloop. rewrite Hloop, map_app. cbn. by rewrite <- app_assoc.
Qed.

(** X10. A schema that [getSchema] returns lists exactly the names the catalog
    query gave, in the same order and with the same repetitions. *)
Theorem getSchema_lists_catalog (d d' : Db) (schema : DatabaseSchema) :
  getSchema d = (d', Ok schema) ->
  map name (tables schema) = catalog_names d.
Proof.
  intros Hschema. unfold getSchema, bind, exec, ret in Hschema. unfold catalog_names.
  destruct (db_exec d tablesQuery) as [d0 [[|r others]|e]]; [| |done].
  - by inversion Hschema.
  - destruct (getSchema_loop (res_values r) [] d0) as [d1 [out|e]] eqn:Eloop; [|done].
    inversion Hschema; subst. cbn [tables].
    by rewrite (getSchema_loop_names _ _ _ _ _ Eloop).
Qed.

End SchemaOrderFacts.

(** ** The results table *)

Section ResultsTableFacts.
Import ResultsTable.

(** A page of the table is the next fifty rows, or what is left of them. *)
Lemma currentRows_chunk (r : QueryResult) (currentPage : Z) :
  (1 <= currentPage)%Z ->
  currentRows (Some r) currentPage
  = take 50 (drop (50 * Z.to_nat (currentPage - 1)) (values r)).
Proof.
  intros Hpage. unfold currentRows, js_slice, endIndex, startIndex, totalRows, ROWS_PER_PAGE.
  set (n := length (values r)).
  destruct (Z.ltb_spec ((currentPage - 1) * 50) 0); [lia|].
  destruct (Z.ltb_spec (Z.min ((currentPage - 1) * 50 + 50) (Z.of_nat n)) 0); [lia|].
  destruct (Z.le_gt_cases ((currentPage - 1) * 50) (Z.of_nat n)) as [Hin|Hout].
  - replace (Z.to_nat (Z.min ((currentPage - 1) * 50) (Z.of_nat n)))
      with (50 * Z.to_nat (currentPage - 1))%nat by lia.
    set (k := (50 * Z.to_nat (currentPage - 1))%nat).
    destruct (Nat.le_gt_cases 50 (n - k)) as [Hfull|Hlast].
    + f_equal. lia.
    + rewrite !take_ge; [done| |]; rewrite length_drop; fold n; lia.
  - rewrite !drop_ge; [by rewrite !take_nil| |]; fold n; lia.
Qed.

Lemma take_add_drop {A} (l : list A) (a b : nat) :
  take (a + b) l = take a l ++ take b (drop a l).
Proof.
  revert l. induction a as [|a IH]; intros l; [done|].
  destruct l as [|x l]; [by rewrite drop_nil, !take_nil|]. cbn. by rewrite IH.
Qed.

Lemma chunks_concat {A} (l : list A) (c m : nat) :
  concat (map (fun j => take c (drop (c * j) l)) (seq 0 m)) = take (c * m) l.
Proof.
  induction m as [|m IH].
  - by rewrite Nat.mul_0_r.
  - rewrite seq_S, map_app, concat_app, IH. cbn [map concat plus].
    rewrite app_nil_r. replace (c * S m)%nat with (c * m + c)%nat by lia.
    by rewrite take_add_drop.
Qed.

Lemma totalPages_bounds (r : QueryResult) :
  (0 <= totalPages (Some r)
   /\ totalRows (Some r) <= 50 * totalPages (Some r) < totalRows (Some r) + 50)%Z.
Proof.
  unfold totalPages, totalRows, ROWS_PER_PAGE.
  pose proof (Z.div_mod (- Z.of_nat (length (values r))) 50 ltac:(lia)).
  pose proof (Z.mod_pos_bound (- Z.of_nat (length (values r))) 50 ltac:(lia)).
  lia.
Qed.

(** X14. The pages [1 .. totalPages], one after the other, are all the rows of
    the result, each row once and in order. *)
Theorem pages_partition_rows (r : QueryResult) :
  concat (map (currentRows (Some r)) (pages (totalPages (Some r)))) = values r.
Proof.
  unfold pages. rewrite map_map.
  rewrite <- seq_shift, map_map.
  erewrite map_ext.
  - rewrite (chunks_concat (values r) 50). apply take_ge.
    pose proof (totalPages_bounds r) as Hb. unfold totalRows in Hb. lia.
  - intros j. cbn beta. rewrite currentRows_chunk by lia.
    do 2 f_equal. lia.
Qed.

(** X15. Whatever page is asked for, when the result has rows [goToPage] yields
    a page between 1 and [totalPages], and that page shows between one and
    fifty rows, as many as its index range says. *)
Theorem goToPage_shows_rows (r : QueryResult) (page : Z) :
  values r <> [] ->
  let p := goToPage (Some r) page in
  (1 <= p <= totalPages (Some r))%Z
  /\ (1 <= length (currentRows (Some r) p) <= 50)%nat
  /\ Z.of_nat (length (currentRows (Some r) p)) = (endIndex (Some r) p - startIndex p)%Z.
Proof.
  intros Hrows p.
  pose proof (totalPages_bounds r) as Hb.
  assert (Hn : (0 < totalRows (Some r))%Z).
  { unfold totalRows. destruct (values r); [done|]. cbn [length]. lia. }
  assert (Hp : (1 <= p <= totalPages (Some r))%Z) by (unfold p, goToPage; lia).
  split; [done|].
  rewrite currentRows_chunk by lia.
  rewrite length_take, length_drop.
  unfold endIndex, startIndex, ROWS_PER_PAGE, totalRows in *. lia.
Qed.

(** X16. A page past the last one shows no row: the page number is kept when a
    new, shorter result arrives, and the table is then empty although the
    result has rows. *)
Theorem stale_page_shows_nothing (r : QueryResult) (currentPage : Z) :
  (totalPages (Some r) < currentPage)%Z ->
  currentRows (Some r) currentPage = [].
Proof.
  intros Hstale. pose proof (totalPages_bounds r) as Hb.
  rewrite currentRows_chunk by lia.
  rewrite drop_ge; [done|]. unfold totalRows in Hb. lia.
Qed.

End ResultsTableFacts.

(** ** The SQL editor *)

Section SqlEditorFacts.
Import SqlEditor.

Lemma split_lines_cons (s : string) : exists line lines, split_lines s = line :: lines.
Proof.
  induction s as [|c s (line & lines & IH)]; [by eexists _, _|].
  cbn [split_lines]. destruct (Ascii.eqb c newline_char); [by eexists _, _|].
  rewrite IH. by eexists _, _.
Qed.

(** Splitting a text at its line feeds and joining the pieces with line
    feeds gives the text back. *)
Lemma split_lines_join (s : string) : join newline (split_lines s) = s.
Proof.
  induction s as [|c s IH]; [done|].
  cbn [split_lines]. destruct (Ascii.eqb_spec c newline_char) as [->|Hc].
  - destruct (split_lines_cons s) as (line & lines & Hs). rewrite Hs in *.
    rewrite join_cons, IH. done.
  - destruct (split_lines_cons s) as (line & lines & Hs). rewrite Hs in *.
    destruct lines as [|l2 lines].
    + cbn [join] in *. by rewrite IH.
    + rewrite join_cons in *. by rewrite <- IH.
Qed.

Lemma split_lines_length (s : string) :
  length (split_lines s) = S (count_char newline_char s).
Proof.
  induction s as [|c s IH]; [done|].
  cbn [split_lines count_char]. destruct (Ascii.eqb c newline_char).
  - cbn [length]. by rewrite IH.
  - destruct (split_lines_cons s) as (line & lines & Hs). rewrite Hs in *.
    cbn [length] in *. lia.
Qed.

Lemma count_char_prefix (c : ascii) (s : string) :
  forall k, count_char c (substring 0 k s) <= count_char c s.
Proof.
  induction s as [|x s IH]; intros [|k]; cbn [substring count_char]; try lia.
  specialize (IH k). lia.
Qed.

(** X17. The line that [updateCursorPosition] reports is one more than the
    number of line feeds before the caret, it is one of the line numbers
    shown beside the text, and the column is at least 1. *)
Theorem cursor_line_is_shown (value : string) (selectionStart : nat) :
  let '(line, column) := updateCursorPosition value selectionStart in
  line = S (count_char newline_char (substring 0 selectionStart value))
  /\ In line (getLineNumbers value)
  /\ 1 <= column.
Proof.
  unfold updateCursorPosition, getLineNumbers.
  rewrite !split_lines_length. repeat split; [|lia].
  apply in_map_iff. exists (count_char newline_char (substring 0 selectionStart value)).
  split; [lia|]. apply in_seq.
  pose proof (count_char_prefix newline_char value selectionStart). lia.
Qed.

End SqlEditorFacts.

(** ** The schema tree *)

Section SchemaBrowserFacts.
Import SchemaBrowser.

(** X18. Toggling a table twice leaves the set of expanded tables as it was, and
    one toggle changes the state of that table only. *)
Theorem toggleTable_twice (expandedTables : gset string) (tableName : string) :
  toggleTable (toggleTable expandedTables tableName) tableName = expandedTables
  /\ forall other,
       other ∈ toggleTable expandedTables tableName
       <-> (if decide (other = tableName) then other ∉ expandedTables
            else other ∈ expandedTables).
Proof.
  unfold toggleTable. cbn zeta. split.
  - destruct (decide (tableName ∈ expandedTables)) as [Hin|Hout].
    + rewrite decide_False
        by (rewrite elem_of_difference, elem_of_singleton; tauto).
      apply set_eq. intros x.
      rewrite elem_of_union, elem_of_difference, elem_of_singleton.
      destruct (decide (x = tableName)); subst; tauto.
    + rewrite decide_True
        by (rewrite elem_of_union, elem_of_singleton; tauto).
      apply set_eq. intros x.
      rewrite elem_of_difference, elem_of_union, elem_of_singleton.
      destruct (decide (x = tableName)); subst; tauto.
  - intros other.
    destruct (decide (tableName ∈ expandedTables));
      destruct (decide (other = tableName)); subst;
      rewrite ?elem_of_difference, ?elem_of_union, ?elem_of_singleton; tauto.
Qed.

End SchemaBrowserFacts.

(** ** The editor page *)

Section EditorTextFacts.
Import SqliteEditor.

Lemma toLowerCase_append (a b : string) :
  toLowerCase (a +:+ b) = toLowerCase a +:+ toLowerCase b.
Proof.
  induction a as [|c a IH]; [done|].
  change (String (lower_char c) (toLowerCase (a +:+ b))
          = String (lower_char c) (toLowerCase a +:+ toLowerCase b)).
  by rewrite IH.
Qed.

(** A lower-cased text splits where the text does. *)
Lemma toLowerCase_split (a b : string) :
  forall s, toLowerCase s = a +:+ b ->
    exists a' b', s = a' +:+ b' /\ toLowerCase a' = a /\ toLowerCase b' = b.
Proof.
  induction a as [|c a IH]; intros s Hs.
  - by exists EmptyString, s.
  - destruct s as [|x s]; [done|].
    change (String (lower_char x) (toLowerCase s) = String c (a +:+ b)) in Hs.
    inversion Hs as [[Hc Hrest]].
    destruct (IH s Hrest) as (a' & b' & -> & Ha & Hb).
    exists (String x a'), b'. repeat split; [|done]. cbn [toLowerCase]. by rewrite Ha.
Qed.

Lemma prefix_append (pattern s : string) :
  String.prefix pattern s = true <-> exists after, s = pattern +:+ after.
Proof.
  revert s. induction pattern as [|c pattern IH]; intros s.
  - split; [by exists s|]. intros _. by destruct s.
  - destruct s as [|x s]; cbn [String.prefix].
    + split; [done|]. by intros (after & Hs).
    + destruct (ascii_dec c x) as [->|Hne].
      * rewrite IH. split.
        -- intros (after & ->). by exists after.
        -- intros (after & Hs).
           change (String x s = String x (pattern +:+ after)) in Hs.
           inversion Hs. by exists after.
      * split; [done|]. intros (after & Hs).
        change (String x s = String c (pattern +:+ after)) in Hs.
        by inversion Hs.
Qed.

(** [includes] finds the pattern exactly when the text is something, the
    pattern, something. *)
Lemma str_includes_spec (s pattern : string) :
  str_includes s pattern = true
  <-> exists before after, s = before +:+ pattern +:+ after.
Proof.
  induction s as [|x s IH]; cbn [str_includes]; rewrite orb_true_iff, prefix_append.
  - split.
    + intros [(after & Hs)|]; [|done]. by exists EmptyString, after.
    + intros (before & after & Hs). left.
      destruct before; [by exists after|done].
  - rewrite IH. split.
    + intros [(after & Hs)|(before & after & ->)].
      * by exists EmptyString, after.
      * by exists (String x before), after.
    + intros (before & after & Hs). destruct before as [|y before].
      * left. by exists after.
      * right. change (String x s = String y (before +:+ pattern +:+ after)) in Hs.
        inversion Hs. by exists before, after.
Qed.

(** The test of the refresh holds exactly when the SQL text holds, anywhere
    and in any letter case, one of the words [create], [drop] or [alter]. *)
Lemma needs_refresh_iff (sql : string) :
  needs_refresh sql = true
  <-> exists before word after,
        sql = before +:+ word +:+ after /\ In (toLowerCase word) refresh_words.
Proof.
  unfold needs_refresh, refresh_words. rewrite !orb_true_iff, !str_includes_spec. split.
  - intros Hfound.
    assert (Hw : exists w before after,
               In w ["create"; "drop"; "alter"]
               /\ toLowerCase sql = before +:+ w +:+ after).
    { destruct Hfound as [[(b & a & H)|(b & a & H)]|(b & a & H)];
        eexists _, b, a; (split; [|exact H]); cbn; tauto. }
    destruct Hw as (w & before & after & Hin & Hsql).
    destruct (toLowerCase_split _ _ _ Hsql) as (b' & rest & -> & Hb & Hrest).
    destruct (toLowerCase_split _ _ _ Hrest) as (w' & a' & -> & Hw' & Ha').
    exists b', w', a'. split; [done|]. by rewrite Hw'.
  - intros (before & word & after & -> & Hin).
    rewrite !toLowerCase_append.
    destruct Hin as [<-|[<-|[<-|[]]]]; eauto 10.
Qed.

(** The literal of a text reads back as exactly that text, whatever quotes
    it holds, and the reading stops where the literal ends. *)
Lemma sql_literal_reads_back (s after : string) :
  String.prefix "'" after = false ->
  read_literal (sql_literal s +:+ after) = Some (s, after).
Proof.
  intros Hafter. unfold sql_literal.
  change (read_quoted ((escape_quotes s +:+ "'") +:+ after) = Some (s, after)).
  induction s as [|c s IH].
  - change (read_quoted (String "'" after) = Some (EmptyString, after)).
    cbn [read_quoted Ascii.eqb Bool.eqb]. destruct after as [|x after]; [done|].
    cbn [String.prefix] in Hafter.
    destruct (Ascii.eqb_spec x "'") as [->|Hx]; [|done].
    exfalso. destruct (ascii_dec "'" "'") as [_|Hne]; [by destruct after|by apply Hne].
  - cbn [escape_quotes]. destruct (Ascii.eqb_spec c "'") as [->|Hc].
    + change (read_quoted (String "'" (String "'" ((escape_quotes s +:+ "'") +:+ after)))
              = Some (String "'" s, after)).
      cbn [read_quoted Ascii.eqb Bool.eqb]. by rewrite IH.
    + change (read_quoted (String c ((escape_quotes s +:+ "'") +:+ after))
              = Some (String c s, after)).
      cbn [read_quoted]. apply Ascii.eqb_neq in Hc. rewrite Hc. by rewrite IH.
Qed.

Lemma field_blank (data : list (string * FormValue)) (key : string) :
  Forall (fun entry => snd entry = FCell (JStr EmptyString)) data ->
  In key (map fst data) ->
  field data key = FCell (JStr EmptyString).
Proof.
  intros Hblank Hin. unfold field.
  destruct (List.find (fun entry => String.eqb (fst entry) key) data) as [entry|] eqn:Hfind.
  - apply find_some in Hfind as [Hentry _].
    rewrite Forall_forall in Hblank. by apply Hblank, list_elem_of_In.
  - apply in_map_iff in Hin as (entry & <- & Hentry).
    apply (find_none _ _ Hfind) in Hentry. by rewrite String.eqb_refl in Hentry.
Qed.

(** X21. A form left entirely empty gives an INSERT statement with no column and
    no value. *)
Theorem insert_statement_empty_form (tableName : string) (data : list (string * FormValue)) :
  Forall (fun entry => snd entry = FCell (JStr EmptyString)) data ->
  insert_statement tableName data = "INSERT INTO " +:+ tableName +:+ " () VALUES ();".
Proof.
  intros Hblank.
  assert (Hcols : insert_columns data = []).
  { unfold insert_columns.
    assert (Hall : forall keys, (forall k, In k keys -> In k (map fst data)) ->
                     List.filter (fun key => not_empty_string (field data key)) keys = []).
    { induction keys as [|k keys IH]; intros Hkeys; [done|].
      cbn [List.filter]. rewrite (field_blank data k Hblank) by (apply Hkeys; by left).
      cbn. apply IH. intros k' Hk'. apply Hkeys. by right. }
    by apply Hall. }
  unfold insert_statement, insert_values. by rewrite Hcols.
Qed.

(** With distinct keys, the form gives for a key the text typed for it. *)
Lemma field_text_entry (entries : list (string * string)) (e : string * string) :
  NoDup (map fst entries) ->
  In e entries ->
  field (map text_entry entries) (fst e) = FCell (JStr (snd e)).
Proof.
  unfold field. induction entries as [|x entries IH]; intros Hnodup Hin; [destruct Hin|].
  cbn [map] in Hnodup. apply NoDup_cons in Hnodup as [Hfresh Hnodup].
  cbn [map List.find text_entry fst snd].
  destruct (String.eqb_spec (fst x) (fst e)) as [Heq|Hne].
  - destruct Hin as [->|Hin]; [done|].
    exfalso. apply Hfresh. rewrite Heq. apply list_elem_of_In. by apply in_map.
  - destruct Hin as [->|Hin]; [done|]. by apply IH.
Qed.

Lemma filter_keeps_all {A} (f : A -> bool) (l : list A) :
  (forall x, In x l -> f x = true) -> List.filter f l = l.
Proof.
  induction l as [|x l IH]; intros Hall; [done|].
  cbn [List.filter]. rewrite (Hall x) by by left.
  f_equal. apply IH. intros y Hy. apply Hall. by right.
Qed.

Lemma not_empty_text (text : string) :
  text <> EmptyString -> not_empty_string (FCell (JStr text)) = true.
Proof. by destruct text. Qed.

(** A list of literals reads back as the texts. *)
Lemma read_values_literals (texts : list string) :
  forall fuel, length texts <= fuel ->
    read_values fuel (join ", " (map sql_literal texts) +:+ ");") = Some (texts, ");").
Proof.
  induction texts as [|text texts IH]; intros fuel Hfuel.
  - destruct fuel; reflexivity.
  - destruct fuel as [|fuel]; [cbn in Hfuel; lia|].
    cbn [length] in Hfuel. cbn [map read_values].
    destruct texts as [|text2 texts].
    + cbn [map join]. by rewrite sql_literal_reads_back.
    + cbn [map] in *. rewrite join_cons, !append_assoc.
      rewrite sql_literal_reads_back by reflexivity.
      change (", " +:+ ?x) with (String "," (String " " x)). cbn iota.
      change (String "," (String " " ?x)) with (", " +:+ x) in IH.
      cbn [Ascii.eqb]. rewrite IH by (cbn [length] in *; lia). done.
Qed.

(** X20. When the keys of the insert form are distinct and every field
    holds a non-empty text, the INSERT statement lists every key and, in
    the same order, the texts as single-quoted literals with each quote
    doubled; SQL's rule for string literals reads these literals back as
    exactly the texts typed, whatever quotes they hold. *)
Theorem insert_statement_text_values (tableName : string)
    (entries : list (string * string)) (fuel : nat) :
  NoDup (map fst entries) ->
  Forall (fun e => snd e <> EmptyString) entries ->
  length entries <= fuel ->
  insert_statement tableName (map text_entry entries)
  = "INSERT INTO " +:+ tableName +:+ " (" +:+ join ", " (map fst entries)
    +:+ ") VALUES (" +:+ join ", " (map (fun e => sql_literal (snd e)) entries) +:+ ");"
  /\ read_values fuel (join ", " (map (fun e => sql_literal (snd e)) entries) +:+ ");")
     = Some (map snd entries, ");").
Proof.
  intros Hnodup Htexts Hfuel. split.
  - assert (Hcols : insert_columns (map text_entry entries) = map fst entries).
    { unfold insert_columns. rewrite map_map. cbn [text_entry fst].
      apply filter_keeps_all. intros k Hk.
      apply in_map_iff in Hk as (e & <- & He).
      rewrite (field_text_entry entries e Hnodup He).
      apply not_empty_text. rewrite Forall_forall in Htexts.
      by apply Htexts, list_elem_of_In. }
    assert (Hvals : map element_text (insert_values (map text_entry entries))
                    = map (fun e => sql_literal (snd e)) entries).
    { unfold insert_values. rewrite Hcols, !map_map.
      apply map_ext_in. intros e He.
      by rewrite (field_text_entry entries e Hnodup He). }
    unfold insert_statement. by rewrite Hcols, Hvals.
  - rewrite <- (map_map snd sql_literal).
    apply read_values_literals. by rewrite length_map.
Qed.

(** X19. After a query that succeeded, the page runs the introspection again
    exactly when the SQL text holds, anywhere and in any letter case, one of
    the words [create], [drop] or [alter]: then the handle is the one
    [getSchema] left and the schema shown is the one it returned (or, if it
    threw, the old schema with the result hidden); otherwise the handle is
    the one the query left, with the old schema and the result shown. *)
Theorem schema_refreshed_on_keyword {engine : SqlEngine} (st : State) (d d1 : Db)
    (sql : string) (result : QueryResult) (t1 t2 : Z) :
  database st = Some d ->
  executeQuery sql d = (d1, Ok result) ->
  let st' := handleExecuteQuery st sql t1 t2 in
  (mentions_refresh_word sql ->
     database st' = Some (getSchema d1).1
     /\ match (getSchema d1).2 with
        | Ok newSchema => schema st' = Some newSchema /\ queryResult st' = Some result
        | Throw _ => schema st' = schema st /\ queryResult st' = None
        end)
  /\ (~ mentions_refresh_word sql ->
        database st' = Some d1
        /\ schema st' = schema st
        /\ queryResult st' = Some result).
Proof.
  intros Hdb Hquery. cbn zeta. unfold handleExecuteQuery. rewrite Hdb, Hquery.
  split.
  - intros Hword. apply needs_refresh_iff in Hword. rewrite Hword.
    by destruct (getSchema d1) as [d2 [newSchema|e]].
  - intros Hword.
    destruct (needs_refresh sql) eqn:Hneeds; [|done].
    exfalso. apply Hword. by apply needs_refresh_iff.
Qed.

End EditorTextFacts.

Section EditorHandlerFacts.
Import SqliteEditor.
Context {engine : SqlEngine}.

(** With a database loaded, [handleExecuteQuery] shows no toast, keeps a
    database loaded and leaves the selected table and the active tab. *)
Lemma handleExecuteQuery_keeps (st : State) (d : Db) (sql : string) (t1 t2 : Z) :
  database st = Some d ->
  toasts (handleExecuteQuery st sql t1 t2) = toasts st
  /\ (exists d', database (handleExecuteQuery st sql t1 t2) = Some d')
  /\ selectedTable (handleExecuteQuery st sql t1 t2) = selectedTable st
  /\ activeTab (handleExecuteQuery st sql t1 t2) = activeTab st.
Proof.
  intros Hdb. unfold handleExecuteQuery. rewrite Hdb.
  destruct (executeQuery sql d) as [d1 [result|error]].
  - destruct (needs_refresh sql); [|by eauto].
    destruct (getSchema d1) as [d2 [newSchema|error]]; by eauto.
  - by eauto.
Qed.

(** X22. When the engine rejects the SQL text, the page shows the engine's
    message behind [SQL Error: ], drops the result shown before, and keeps
    the schema and the measured time as they were, with no refresh even if
    the text holds a refresh word. *)
Theorem query_error_shown (st : State) (d d1 : Db) (sql diagnostic : string) (t1 t2 : Z) :
  database st = Some d ->
  db_exec d sql = (d1, Throw (ErrorObj diagnostic)) ->
  let st' := handleExecuteQuery st sql t1 t2 in
  queryError st' = Some ("SQL Error: " +:+ diagnostic)
  /\ queryResult st' = None
  /\ schema st' = schema st
  /\ executionTime st' = executionTime st
  /\ database st' = Some d1
  /\ isExecuting st' = false.
Proof.
  intros Hdb Hexec. cbn zeta. unfold handleExecuteQuery, executeQuery.
  by rewrite Hdb, Hexec.
Qed.

(** X23. When the query succeeds but the schema refresh that follows throws, the
    page shows the error of the refresh, without the [SQL Error: ] prefix,
    and shows no result, although the statement was run: the handle is in
    the state the query and the refresh left, and the schema shown is the
    old one. *)
Theorem failed_refresh_hides_result (st : State) (d d1 d2 : Db) (sql message : string)
    (result : QueryResult) (t1 t2 : Z) :
  database st = Some d ->
  executeQuery sql d = (d1, Ok result) ->
  needs_refresh sql = true ->
  getSchema d1 = (d2, Throw (ErrorObj message)) ->
  let st' := handleExecuteQuery st sql t1 t2 in
  queryError st' = Some message
  /\ queryResult st' = None
  /\ schema st' = schema st
  /\ database st' = Some d2
  /\ executionTime st' = Some (mkFraction (t2 - t1) 1000).
Proof.
  intros Hdb Hquery Hrefresh Hschema. cbn zeta. unfold handleExecuteQuery.
  by rewrite Hdb, Hquery, Hrefresh, Hschema.
Qed.

(** X24. [handleCrudSubmit] announces a successful insert even when the engine
    rejected the INSERT statement: the page then shows the engine's error
    and, as its last toast, [Record inserted successfully]. *)
Theorem handleCrudSubmit_reports_success (st : State) (d d1 : Db) (tableName : string)
    (data : list (string * FormValue)) (diagnostic : string) (t1 t2 t3 t4 : Z) :
  database st = Some d ->
  db_exec d (insert_statement tableName data) = (d1, Throw (ErrorObj diagnostic)) ->
  is_selected st tableName && String.eqb (activeTab st) "browse" = false ->
  let st' := handleCrudSubmit st tableName data t1 t2 t3 t4 in
  queryError st' = Some ("SQL Error: " +:+ diagnostic)
  /\ toasts st' = toasts st ++ [mkToast "Success" "Record inserted successfully" None].
Proof.
  intros Hdb Hexec Hbrowse. cbn zeta. unfold handleCrudSubmit.
  rewrite Hdb, Hbrowse.
  unfold handleExecuteQuery, executeQuery. by rewrite Hdb, Hexec.
Qed.

(** Whatever the engine answers, [handleCrudSubmit] on a loaded database
    ends with the toast [Record inserted successfully] and shows no other
    toast. *)
Lemma handleCrudSubmit_toasts (st : State) (d : Db) (tableName : string)
    (data : list (string * FormValue)) (t1 t2 t3 t4 : Z) :
  database st = Some d ->
  toasts (handleCrudSubmit st tableName data t1 t2 t3 t4)
  = toasts st ++ [mkToast "Success" "Record inserted successfully" None].
Proof.
  intros Hdb. unfold handleCrudSubmit. rewrite Hdb.
  destruct (handleExecuteQuery_keeps st d (insert_statement tableName data) t1 t2 Hdb)
    as (Htoasts & (d' & Hdb') & _ & _).
  cbn [toast toasts]. f_equal.
  destruct (is_selected st tableName && String.eqb (activeTab st) "browse"); [|done].
  destruct (handleExecuteQuery_keeps _ d' (select_page tableName) t3 t4 Hdb')
    as (Htoasts' & _).
  by rewrite Htoasts'.
Qed.

(** X25. When a file opens but its introspection throws, the page keeps the new
    handle and the new file id while the schema, the database information
    and the result shown stay those of the database loaded before; the toast
    says the database could not be parsed. *)
Theorem loadDatabase_failed_introspection (size_label : nat -> string) (st : State)
    (buffer : list byte) (fileId : string) (db db' : Db) (e : exn) :
  fromBuffer buffer = Ok db ->
  getSchema db = (db', Throw e) ->
  let st' := loadDatabase_onSuccess size_label st buffer fileId in
  database st' = Some db'
  /\ currentFileId st' = Some fileId
  /\ schema st' = schema st
  /\ databaseInfo st' = databaseInfo st
  /\ queryResult st' = queryResult st
  /\ toasts st' = toasts st ++ [destructive "Error" "Failed to parse SQLite database"].
Proof.
  intros Hopen Hschema. cbn zeta. unfold loadDatabase_onSuccess.
  by rewrite Hopen, Hschema.
Qed.

End EditorHandlerFacts.

(** ** Instances of the further properties *)

Section MoreExamples.
Import StubEngine Fixtures SqliteEditor.

Lemma upload_then_fetch_witness :
  let st' := (upload_route (node := MapDisk.node) MapDisk.empty_storage
                (Some shop) "u1" "u2" 0%Z).1 in
  (upload_route (node := MapDisk.node) MapDisk.empty_storage (Some shop) "u1" "u2" 0%Z).2
    = Responded 200
        (FileBody true
           {| id := "u2"; filename := "u1" +:+ "_" +:+ "shop.DB";
              originalName := "shop.DB"; fileSize := 2; uploadedAt := 0 |})
  /\ buffer_route st' "u2"
     = (st', SendBuffer [("Content-Type", "application/octet-stream")] [x01; x02])
  /\ download_route st' "u2"
     = (st', SendBuffer [ ("Content-Type", "application/x-sqlite3");
                          ("Content-Disposition", attachment "shop.DB") ]
                        [x01; x02]).
Proof.
  eapply (upload_then_fetch (node := MapDisk.node) MapDisk.empty_storage shop
            "u1" "u2" 0%Z).
  - reflexivity.
  - by vm_compute.
  - reflexivity.
Defined.

(** A name with a line feed is accepted by the filter and stored; the
    download of the record then answers 500. *)
Example download_name_with_line_feed :
  let f := mkUploadedFile (String "a" (String "010" "b.db")) [x01] 1 in
  let st' := (upload_route (node := MapDisk.node) MapDisk.empty_storage
                (Some f) "u1" "u2" 0%Z).1 in
  (download_route st' "u2").2 = SendJson 500 invalid_header_message.
Proof. by vm_compute. Qed.

Lemma upload_write_failure_witness :
  upload_route (node := locked) (mkMemStorage (node := locked) ∅ ∅ ∅)
    (Some shop) "u1" "u2" 0%Z
  = (mkMemStorage (node := locked) ∅ ∅ ∅,
     Responded 500 (MessageBody "EACCES: permission denied")).
Proof.
  apply (upload_write_failure (node := locked) (mkMemStorage (node := locked) ∅ ∅ ∅)
           shop "u1" "u2" 0%Z ∅ "EACCES: permission denied").
  - reflexivity.
  - by vm_compute.
  - reflexivity.
Defined.

Lemma serve_missing_witness :
  buffer_route (node := MapDisk.node) orphan_store "a"
    = (orphan_store, SendJson 500 "File not found")
  /\ download_route (node := MapDisk.node) orphan_store "a"
     = (orphan_store, SendJson 500 "File not found").
Proof.
  apply (serve_missing (node := MapDisk.node) orphan_store "a" shop_record).
  - apply lookup_singleton_eq.
  - apply lookup_empty.
  - apply bool_decide_eq_false_2. intros [b Hb]. cbn in Hb.
    by rewrite lookup_empty in Hb.
Defined.

Lemma delete_then_serve_witness :
  let st := (saveFileBuffer (node := MapDisk.node) orphan_store "f.db" [x01]).1 in
  let st' := (delete_route st "a").1 in
  buffer_route st' "a" = (st', SendJson 404 "File not found")
  /\ download_route st' "a" = (st', SendJson 404 "File not found")
  /\ delete_route st' "a" = (st', Responded 200 (SuccessBody true))
  /\ forall id', id' <> "a" -> getSqliteFile st' id' = getSqliteFile st id'.
Proof.
  cbn zeta.
  apply (delete_then_serve (node := MapDisk.node)
           (saveFileBuffer (node := MapDisk.node) orphan_store "f.db" [x01]).1).
  unfold delete_route, deleteSqliteFile, saveFileBuffer, orphan_store. cbn.
  rewrite lookup_singleton_eq. cbn.
  by destruct (bool_decide _).
Defined.

Lemma delete_drops_cached_buffer_witness :
  let st := (saveFileBuffer (node := MapDisk.node) orphan_store "f.db" [x01]).1 in
  fileBuffers (delete_route st "a").1 !! "f.db" = None
  /\ forall g, g <> "f.db" ->
       fileBuffers (delete_route st "a").1 !! g = fileBuffers st !! g.
Proof.
  cbn zeta.
  apply (delete_drops_cached_buffer (node := MapDisk.node)
           (saveFileBuffer (node := MapDisk.node) orphan_store "f.db" [x01]).1
           _ "a" shop_record).
  - apply lookup_singleton_eq.
  - unfold delete_route, deleteSqliteFile, saveFileBuffer, orphan_store. cbn.
    rewrite lookup_singleton_eq. cbn.
    by destruct (bool_decide _).
Defined.

Lemma delete_unlink_failure_witness :
  delete_route (node := locked) locked_store "a"
  = (locked_store, Responded 500 (MessageBody "EACCES: permission denied")).
Proof.
  apply (delete_unlink_failure (node := locked) locked_store "a" shop_record
           (disk locked_store) "EACCES: permission denied").
  - apply lookup_singleton_eq.
  - vm_compute. reflexivity.
  - reflexivity.
Defined.

Lemma getFileBuffer_reads_disk_once_witness :
  (getFileBuffer (node := MapDisk.node) cold_store "f.db").2 = Ok [x01]
  /\ forall dk,
       getFileBuffer (set_disk (getFileBuffer (node := MapDisk.node) cold_store "f.db").1 dk)
                     "f.db"
       = (set_disk (getFileBuffer (node := MapDisk.node) cold_store "f.db").1 dk, Ok [x01]).
Proof.
  apply (getFileBuffer_reads_disk_once (node := MapDisk.node) cold_store "f.db" [x01]).
  - apply lookup_empty.
  - vm_compute. reflexivity.
  - vm_compute. reflexivity.
Defined.

Lemma fileFilter_accepts_iff_witness :
  fileFilter "Report.SQLite3" = Ok true
  <-> exists stem ext,
        "Report.SQLite3" = stem +:+ ext
        /\ stem <> EmptyString
        /\ In (toLowerCase ext) allowedExts.
Proof.
  apply (fileFilter_accepts_iff "Report.SQLite3").
  unfold no_separator. cbn. intros H.
  repeat (destruct H as [H|H]; [discriminate H|]). exact H.
Defined.

Lemma exportToCSV_line_count_witness :
  count_char newline_char (Csv.exportToCSV Csv.example_result) = 2.
Proof.
  apply (exportToCSV_line_count Csv.example_result).
  - discriminate.
  - split.
    + intros col [<-|[<-|[]]]; reflexivity.
    + intros row v [<-|[<-|[]]] [<-|[<-|[]]]; reflexivity.
Defined.

Lemma getSchema_lists_catalog_witness :
  map name [ {| name := JStr "t";
                table_columns := columns_of
                  [ {| res_columns := table_info_columns;
                       res_values := [[JNum 0; JStr "x"; JStr "INTEGER";
                                       JNum 0; JNull; JNum 0]] |} ];
                rowCount := JNum 2 |} ]
  = catalog_names (engine := stub) image.
Proof.
  apply (getSchema_lists_catalog (engine := stub) image image
           {| tables := [ {| name := JStr "t";
                             table_columns := columns_of
                               [ {| res_columns := table_info_columns;
                                    res_values := [[JNum 0; JStr "x"; JStr "INTEGER";
                                                    JNum 0; JNull; JNum 0]] |} ];
                             rowCount := JNum 2 |} ] |}).
  reflexivity.
Defined.

Lemma goToPage_shows_rows_witness :
  let p := ResultsTable.goToPage (Some Csv.example_result) 7 in
  (1 <= p <= ResultsTable.totalPages (Some Csv.example_result))%Z
  /\ (1 <= length (ResultsTable.currentRows (Some Csv.example_result) p) <= 50)%nat
  /\ Z.of_nat (length (ResultsTable.currentRows (Some Csv.example_result) p))
     = (ResultsTable.endIndex (Some Csv.example_result) p - ResultsTable.startIndex p)%Z.
Proof.
  apply (goToPage_shows_rows Csv.example_result 7). discriminate.
Defined.

Lemma stale_page_shows_nothing_witness :
  ResultsTable.currentRows (Some Csv.example_result) 3 = [].
Proof.
  apply (stale_page_shows_nothing Csv.example_result 3). by vm_compute.
Defined.

Lemma insert_statement_text_values_witness :
  insert_statement "users" (map text_entry [("name", "O'Brien"); ("city", "Cork")])
  = "INSERT INTO " +:+ "users" +:+ " (" +:+ join ", " ["name"; "city"]
    +:+ ") VALUES (" +:+ join ", " [sql_literal "O'Brien"; sql_literal "Cork"] +:+ ");"
  /\ read_values 2 (join ", " [sql_literal "O'Brien"; sql_literal "Cork"] +:+ ");")
     = Some (["O'Brien"; "Cork"], ");").
Proof.
  apply (insert_statement_text_values "users" [("name", "O'Brien"); ("city", "Cork")] 2).
  - repeat constructor; cbn; intros H; inversion H; subst;
      repeat match goal with Hx : _ ∈ _ |- _ => inversion Hx; clear Hx; subst end.
  - repeat constructor; discriminate.
  - cbn. lia.
Defined.

Lemma schema_refreshed_on_keyword_witness :
  let st' := handleExecuteQuery (engine := stub) (page (engine := stub) image)
               "CREATE TABLE IF NOT EXISTS t(x INTEGER)" 0 5 in
  database st' = Some (getSchema (engine := stub) image).1
  /\ schema st' = Some (mkDatabaseSchema
                          [ {| name := JStr "t";
                               table_columns := columns_of
                                 [ {| res_columns := table_info_columns;
                                      res_values := [[JNum 0; JStr "x"; JStr "INTEGER";
                                                      JNum 0; JNull; JNum 0]] |} ];
                               rowCount := JNum 2 |} ])
  /\ queryResult st' = Some {| columns := []; values := [] |}.
Proof.
  destruct (schema_refreshed_on_keyword (engine := stub) (page (engine := stub) image)
              image image "CREATE TABLE IF NOT EXISTS t(x INTEGER)"
              {| columns := []; values := [] |} 0 5 eq_refl eq_refl) as [Hrefresh _].
  destruct Hrefresh as [Hdb Hschema].
  - exists EmptyString, "CREATE", " TABLE IF NOT EXISTS t(x INTEGER)".
    split; [reflexivity|]. left. reflexivity.
  - split; [exact Hdb|]. exact Hschema.
Defined.

Lemma insert_statement_empty_form_witness :
  insert_statement "users"
    [("name", FCell (JStr EmptyString)); ("email", FCell (JStr EmptyString))]
  = "INSERT INTO " +:+ "users" +:+ " () VALUES ();".
Proof.
  apply (insert_statement_empty_form "users").
  repeat constructor.
Defined.

Lemma query_error_shown_witness :
  let st' := handleExecuteQuery (engine := stub) (page (engine := stub) image) "SELEKT * FROM t" 0 5 in
  queryError st' = Some ("SQL Error: " +:+ "syntax error")
  /\ queryResult st' = None
  /\ schema st' = schema (page (engine := stub) image)
  /\ executionTime st' = executionTime (page (engine := stub) image)
  /\ database st' = Some image
  /\ isExecuting st' = false.
Proof.
  apply (query_error_shown (engine := stub) (page (engine := stub) image) image image
           "SELEKT * FROM t" "syntax error" 0 5); reflexivity.
Defined.

Lemma failed_refresh_hides_result_witness :
  let st' := handleExecuteQuery (engine := stub_named "order items")
               (page (engine := stub_named "order items") image)
               "CREATE TABLE IF NOT EXISTS t(x INTEGER)" 0 5 in
  queryError st' = Some "syntax error"
  /\ queryResult st' = None
  /\ schema st' = schema (page (engine := stub_named "order items") image)
  /\ database st' = Some image
  /\ executionTime st' = Some (mkFraction (5 - 0) 1000).
Proof.
  apply (failed_refresh_hides_result (engine := stub_named "order items")
           (page (engine := stub_named "order items") image) image image image
           "CREATE TABLE IF NOT EXISTS t(x INTEGER)" "syntax error"
           {| columns := []; values := [] |} 0 5); reflexivity.
Defined.

Lemma handleCrudSubmit_reports_success_witness :
  let st' := handleCrudSubmit (engine := stub) (page (engine := stub) image) "t"
               [("x", FCell (JStr "7"))] 0 1 2 3 in
  queryError st' = Some ("SQL Error: " +:+ "syntax error")
  /\ toasts st' = toasts (page (engine := stub) image)
                  ++ [mkToast "Success" "Record inserted successfully" None].
Proof.
  apply (handleCrudSubmit_reports_success (engine := stub) (page (engine := stub) image) image image "t"
           [("x", FCell (JStr "7"))] "syntax error" 0 1 2 3); reflexivity.
Defined.

Lemma loadDatabase_failed_introspection_witness :
  let st' := loadDatabase_onSuccess (engine := stub_named "order items")
               (fun n => "0.0") (page (engine := stub_named "order items") image)
               image "file-1" in
  database st' = Some image
  /\ currentFileId st' = Some "file-1"
  /\ schema st' = schema (page (engine := stub_named "order items") image)
  /\ databaseInfo st' = databaseInfo (page (engine := stub_named "order items") image)
  /\ queryResult st' = queryResult (page (engine := stub_named "order items") image)
  /\ toasts st' = toasts (page (engine := stub_named "order items") image)
                  ++ [destructive "Error" "Failed to parse SQLite database"].
Proof.
  apply (loadDatabase_failed_introspection (engine := stub_named "order items")
           (fun n => "0.0") (page (engine := stub_named "order items") image)
           image "file-1" image image (ErrorObj "syntax error")); reflexivity.
Defined.

End MoreExamples.
